(** * Sports day tracker: score upsert, cascade delete, standings, stopwatch

    A shallow embedding of the logic of [src/App.js]: the score-entry form
    ([ScoreEntry]), the cascade deletes ([EventList], [ParticipantList]),
    the derived views ([EventScoresView], [OverallStandings]) and the
    [Stopwatch] component, over a small model of the Firestore collections
    they read and write. *)

From Stdlib Require Import ZArith QArith Lqa List Bool Ascii String Lia Permutation Sorted.
From Stdlib Require Import Decimal DecimalString DecimalZ.
From stdpp Require Import gmap strings.
Import ListNotations.

Local Open Scope string_scope.
Local Open Scope list_scope.

(** ** JavaScript numbers

    A JavaScript number is modelled as an exact rational or [NaN]: rounding
    and the infinities are idealised away, [NaN] is kept because the code
    tests numbers for truthiness and feeds differences to [sort]. *)

Module Js.

Inductive number :=
| Num (q : Q)
| NaN.

Definition add (a b : number) : number :=
  match a, b with
  | Num x, Num y => Num (x + y)
  | _, _ => NaN
  end.

Definition sub (a b : number) : number :=
  match a, b with
  | Num x, Num y => Num (x - y)
  | _, _ => NaN
  end.

(** [ToBoolean] on a number: [0] and [NaN] are falsy. *)
Definition truthy (n : number) : bool :=
  match n with
  | Num q => negb (Qeq_bool q 0)
  | NaN => false
  end.

Definition is_num (n : number) : bool :=
  match n with
  | Num _ => true
  | NaN => false
  end.

(** The rational behind a number, [0] for [NaN]. *)
Definition value (n : number) : Q :=
  match n with
  | Num q => q
  | NaN => 0
  end.

(** [SortCompare]: the sign of what the comparator returned, [NaN] counting
    as [+0]. *)
Definition sign (n : number) : comparison :=
  match n with
  | Num q => (q ?= 0)%Q
  | NaN => Eq
  end.

(** [Array.prototype.sort(comparefn)]. ECMAScript requires the sort to be
    stable, so for a consistent comparator its result is determined; this
    insertion sort computes it. [comparefn a b] negative puts [a] first. *)
Section Sort.
Context {A : Type} (comparefn : A -> A -> number).

Fixpoint insert (x : A) (l : list A) : list A :=
  match l with
  | [] => [x]
  | y :: l' =>
      match sign (comparefn x y) with
      | Gt => y :: insert x l'
      | _ => x :: y :: l'
      end
  end.

Definition sort (l : list A) : list A := fold_right insert [] l.
End Sort.

(** *** Objects used as dictionaries

    An object with string keys, its own properties in creation order.
    [Object.keys] lists the keys that are array indices first, in ascending
    numeric order, then the others in creation order. The keys are document
    ids; the properties every object inherits are left out. *)

Definition object (V : Type) : Type := list (string * V).

Fixpoint get {V : Type} (o : object V) (k : string) : option V :=
  match o with
  | [] => None
  | (k', v) :: o' => if String.eqb k' k then Some v else get o' k
  end.

Fixpoint set {V : Type} (o : object V) (k : string) (v : V) : object V :=
  match o with
  | [] => [(k, v)]
  | (k', v') :: o' =>
      if String.eqb k' k then (k', v) :: o' else (k', v') :: set o' k v
  end.

(** *** Strings of digits *)

Definition is_digit (c : ascii) : bool :=
  let n := nat_of_ascii c in (48 <=? n)%nat && (n <=? 57)%nat.

Definition is_dot (c : ascii) : bool := Ascii.eqb c "."%char.

Fixpoint all_digits (s : string) : bool :=
  match s with
  | EmptyString => true
  | String c s' => is_digit c && all_digits s'
  end.

(** Longest prefix of digits, and what follows it. *)
Fixpoint span_digits (s : string) : string * string :=
  match s with
  | String c s' =>
      if is_digit c
      then let '(d, r) := span_digits s' in (String c d, r)
      else (EmptyString, s)
  | EmptyString => (EmptyString, EmptyString)
  end.

Definition digit_value (c : ascii) : Z := Z.of_nat (nat_of_ascii c) - 48.

Fixpoint digits_value (acc : Z) (s : string) : Z :=
  match s with
  | EmptyString => acc
  | String c s' => digits_value (10 * acc + digit_value c) s'
  end.

(** A canonical numeric string below [2^32 - 1] is an array index. *)
Definition array_index (k : string) : option Z :=
  match k with
  | EmptyString => None
  | String c k' =>
      if all_digits k && (negb (Ascii.eqb c "0"%char) || String.eqb k' EmptyString)
                      && (digits_value 0 k <? 4294967295)%Z
      then Some (digits_value 0 k)
      else None
  end.

Definition is_index (k : string) : bool :=
  match array_index k with Some _ => true | None => false end.

Definition index_of (k : string) : Z :=
  match array_index k with Some i => i | None => 0 end.

Definition keys {V : Type} (o : object V) : list string :=
  let ks := map fst o in
  sort (fun a b => Num (inject_Z (index_of a - index_of b))) (List.filter is_index ks)
  ++ List.filter (fun k => negb (is_index k)) ks.

Definition pow10 (n : nat) : positive := Nat.iter n (Pos.mul 10) 1%positive.

(** [parseFloat] on a string without sign, exponent or white space, the only
    strings the score form lets into its state: the longest prefix
    [digits], [digits.digits], [digits.] or [.digits] is read as a decimal;
    with no digit at all the result is [NaN]. *)
Definition parseFloat (s : string) : number :=
  let '(ip, rest) := span_digits s in
  let fp := match rest with
            | String c r => if is_dot c then fst (span_digits r) else EmptyString
            | EmptyString => EmptyString
            end in
  match ip, fp with
  | EmptyString, EmptyString => NaN
  | _, _ =>
      Num (Qmake (digits_value 0 (ip ++ fp)) (pow10 (String.length fp)))
  end.

End Js.

(** ** Regular expressions

    Enough of the regular-expression language for the pattern of the score
    form, matched with Brzozowski derivatives. [test] is a full match: the
    source pattern is anchored with [^] and [$] and has no flags. *)

Module Regex.

Inductive regex :=
| Empty
| Eps
| Chr (p : ascii -> bool)
| Alt (r s : regex)
| Seq (r s : regex)
| Star (r : regex).

Definition Opt (r : regex) : regex := Alt r Eps.

Fixpoint nullable (r : regex) : bool :=
  match r with
  | Empty => false
  | Eps => true
  | Chr _ => false
  | Alt r s => nullable r || nullable s
  | Seq r s => nullable r && nullable s
  | Star _ => true
  end.

Fixpoint deriv (c : ascii) (r : regex) : regex :=
  match r with
  | Empty => Empty
  | Eps => Empty
  | Chr p => if p c then Eps else Empty
  | Alt r s => Alt (deriv c r) (deriv c s)
  | Seq r s =>
      if nullable r
      then Alt (Seq (deriv c r) s) (deriv c s)
      else Seq (deriv c r) s
  | Star r => Seq (deriv c r) (Star r)
  end.

Fixpoint test (r : regex) (s : string) : bool :=
  match s with
  | EmptyString => nullable r
  | String c s' => test (deriv c r) s'
  end.

(** The words of a regular expression. *)
Inductive matches : regex -> string -> Prop :=
| MEps : matches Eps EmptyString
| MChr p c : p c = true -> matches (Chr p) (String c EmptyString)
| MAltL r s w : matches r w -> matches (Alt r s) w
| MAltR r s w : matches s w -> matches (Alt r s) w
| MSeq r s u v : matches r u -> matches s v -> matches (Seq r s) (u ++ v)
| MStar0 r : matches (Star r) EmptyString
| MStarS r u v : matches r u -> matches (Star r) v -> matches (Star r) (u ++ v).

End Regex.

(** ** The Firestore collections

    The three collections under [artifacts/<appId>/public/data], each a list
    of documents in snapshot order. Event and participant ids are the
    strings the views pass around; the id of a score document is only ever
    used as a key and is a natural number here, [addDoc] taking one that is
    not in use. *)

Module Firestore.

Abbreviation DocId := nat (only parsing).

Record EventData := { e_name : string; e_type : string }.

Record ParticipantData := { name : string; house : string }.

Record ScoreData := {
  eventId : string;
  participantId : string;
  score : Js.number;
  timestamp : Z
}.

Record Db := {
  sportsday_events : list (string * EventData);
  sportsday_participants : list (string * ParticipantData);
  sportsday_scores : list (DocId * ScoreData)
}.

(** The requests the application sends. *)
Inductive Op :=
| DeleteEvent (id : string)
| DeleteParticipant (id : string)
| DeleteScore (id : DocId)
| AddScore (data : ScoreData)
| UpdateScore (id : DocId) (data : ScoreData)
| GetScores (byEvent byParticipant : option string)
| GetParticipants.

Inductive result (A : Type) :=
| Ok (a : A)
| Rejected (message : string).
Arguments Ok {A} a.
Arguments Rejected {A} message.

(** A store call: it may change the collections and either resolves or
    rejects with a message. *)
Definition Fire (A : Type) : Type := Db -> Db * result A.

Definition ret {A : Type} (a : A) : Fire A := fun d => (d, Ok a).

Definition bind {A B : Type} (m : Fire A) (k : A -> Fire B) : Fire B :=
  fun d =>
    match m d with
    | (d', Ok a) => k a d'
    | (d', Rejected e) => (d', Rejected e)
    end.

Notation "'await' x <- m ; k" := (bind m (fun x => k))
  (at level 10, x name, m at level 100, k at level 200).

(** [for (const x of xs) await body(x)]: stops at the first rejection. *)
Fixpoint for_of {A : Type} (xs : list A) (body : A -> Fire unit) : Fire unit :=
  match xs with
  | [] => ret tt
  | x :: xs' => await _ <- body x; for_of xs' body
  end.

(** A call whose promise is not awaited: what the store takes is done, what
    it rejects is lost, and the caller goes on either way without seeing
    the rejection. *)
Definition detached {A : Type} (m : Fire A) : Fire unit :=
  fun d => (fst (m d), Ok tt).

(** [xs.forEach(async x => { await body(x) })]: every call is started, none
    is awaited. *)
Fixpoint forEach_async {A : Type} (xs : list A) (body : A -> Fire unit) : Fire unit :=
  match xs with
  | [] => ret tt
  | x :: xs' => await _ <- detached (body x); forEach_async xs' body
  end.

Definition autoId (d : Db) : DocId :=
  S (list_max (map fst (sportsday_scores d))).

Definition with_scores (d : Db) (l : list (DocId * ScoreData)) : Db :=
  {| sportsday_events := sportsday_events d;
     sportsday_participants := sportsday_participants d;
     sportsday_scores := l |}.

Definition field_is (want : option string) (have : string) : bool :=
  match want with
  | Some v => String.eqb have v
  | None => true
  end.

(** [query(scores, where("eventId", "==", e), where("participantId", "==", p))],
    either clause optional. *)
Definition where_scores (byEvent byParticipant : option string)
    (l : list (DocId * ScoreData)) : list (DocId * ScoreData) :=
  List.filter (fun doc => field_is byEvent (eventId (snd doc))
                     && field_is byParticipant (participantId (snd doc))) l.

Definition has_doc (id : DocId) (l : list (DocId * ScoreData)) : bool :=
  existsb (fun doc => Nat.eqb (fst doc) id) l.

(** What an accepted request does to the collections. Deleting a document
    that is not there succeeds; updating one fails. *)
Definition commit (o : Op) (d : Db) : result Db :=
  match o with
  | DeleteEvent id =>
      Ok {| sportsday_events :=
              List.filter (fun doc => negb (String.eqb (fst doc) id)) (sportsday_events d);
            sportsday_participants := sportsday_participants d;
            sportsday_scores := sportsday_scores d |}
  | DeleteParticipant id =>
      Ok {| sportsday_events := sportsday_events d;
            sportsday_participants :=
              List.filter (fun doc => negb (String.eqb (fst doc) id)) (sportsday_participants d);
            sportsday_scores := sportsday_scores d |}
  | DeleteScore id =>
      Ok (with_scores d
            (List.filter (fun doc => negb (Nat.eqb (fst doc) id)) (sportsday_scores d)))
  | AddScore data =>
      Ok (with_scores d (sportsday_scores d ++ [(autoId d, data)]))
  | UpdateScore id data =>
      if has_doc id (sportsday_scores d)
      then Ok (with_scores d
                 (map (fun doc => if Nat.eqb (fst doc) id then (id, data) else doc)
                      (sportsday_scores d)))
      else Rejected "not-found"
  | GetScores _ _ => Ok d
  | GetParticipants => Ok d
  end.

Section Client.
(** Which requests the store takes: a request can be refused by the
    security rules or never reach the backend. *)
Variable accepts : Op -> bool.

Definition request (o : Op) : Fire unit :=
  fun d =>
    if accepts o
    then match commit o d with
         | Ok d' => (d', Ok tt)
         | Rejected e => (d, Rejected e)
         end
    else (d, Rejected "unavailable").

Definition deleteDoc_event (id : string) : Fire unit := request (DeleteEvent id).
Definition deleteDoc_participant (id : string) : Fire unit :=
  request (DeleteParticipant id).
Definition deleteDoc (id : DocId) : Fire unit := request (DeleteScore id).
Definition updateDoc (id : DocId) (data : ScoreData) : Fire unit :=
  request (UpdateScore id data).
Definition addDoc (data : ScoreData) : Fire unit := request (AddScore data).

Definition getDocs (byEvent byParticipant : option string)
    : Fire (list (DocId * ScoreData)) :=
  await _ <- request (GetScores byEvent byParticipant);
  (fun d => (d, Ok (where_scores byEvent byParticipant (sportsday_scores d)))).

Definition getDocs_participants : Fire (list (string * ParticipantData)) :=
  await _ <- request GetParticipants;
  (fun d => (d, Ok (sportsday_participants d))).
End Client.

End Firestore.

(** ** The score-entry form ([ScoreEntry]) *)

Module ScoreEntry.
Import Firestore.

(** A value of the [scores] state: the number a snapshot delivered, or the
    text the input reported. *)
Inductive field :=
| Loaded (n : Js.number)
| Typed (s : string).

Record State := {
  participants : list (string * ParticipantData);
  scores : gmap string field;
  existingScores : gmap string DocId;
  error : string;
  loadingParticipants : bool
}.

(** The state of a freshly mounted form. *)
Definition initial : State :=
  {| participants := [];
     scores := ∅;
     existingScores := ∅;
     error := "";
     loadingParticipants := true |}.

(** Listener on the participants collection; [localeCompare] is the host's
    collation. *)
Definition onParticipantsSnapshot (localeCompare : string -> string -> Js.number)
    (docs : list (string * ParticipantData)) (st : State) : State :=
  {| participants :=
       Js.sort (fun a b => localeCompare (name (snd a)) (name (snd b))) docs;
     scores := scores st;
     existingScores := existingScores st;
     error := error st;
     loadingParticipants := false |}.

(** Listener on [where("eventId", "==", eventId)]. *)
Definition onScoresSnapshot (docs : list (DocId * ScoreData)) (st : State) : State :=
  {| participants := participants st;
     scores :=
       fold_left (fun m doc => <[participantId (snd doc) := Loaded (score (snd doc))]> m)
                 docs ∅;
     existingScores :=
       fold_left (fun m doc => <[participantId (snd doc) := fst doc]> m) docs ∅;
     error := error st;
     loadingParticipants := loadingParticipants st |}.

(** [/^\d*\.?\d*$/] *)
Definition score_pattern : Regex.regex :=
  Regex.Seq (Regex.Star (Regex.Chr Js.is_digit))
    (Regex.Seq (Regex.Opt (Regex.Chr Js.is_dot))
               (Regex.Star (Regex.Chr Js.is_digit))).

Definition accepted (value : string) : bool :=
  String.eqb value "" || Regex.test score_pattern value.

Definition handleScoreChange (participantId value : string) (st : State) : State :=
  if accepted value
  then {| participants := participants st;
          scores := <[participantId := Typed value]> (scores st);
          existingScores := existingScores st;
          error := error st;
          loadingParticipants := loadingParticipants st |}
  else st.

(** [scoreValue !== undefined && scoreValue !== null && scoreValue !== ''];
    the state never holds [null]. *)
Definition filled (scoreValue : option field) : bool :=
  match scoreValue with
  | None => false
  | Some (Typed s) => negb (String.eqb s "")
  | Some (Loaded _) => true
  end.

(** [parseFloat(scoreValue)]; a number is converted to a string and read
    back. *)
Definition parseFloat (scoreValue : option field) : Js.number :=
  match scoreValue with
  | Some (Typed s) => Js.parseFloat s
  | Some (Loaded n) => n
  | None => Js.NaN
  end.

Section Submit.
Variable accepts : Op -> bool.

(** One turn of the loop of [handleSubmit]. *)
Definition saveScore (eventId : string) (st : State) (now : Z)
    (participant : string * ParticipantData) : Fire unit :=
  let scoreValue := scores st !! fst participant in
  if filled scoreValue then
    let scoreData :=
      {| eventId := eventId;
         participantId := fst participant;
         score := parseFloat scoreValue;
         timestamp := now |} in
    match existingScores st !! fst participant with
    | Some existing => updateDoc accepts existing scoreData
    | None => addDoc accepts scoreData
    end
  else
    match existingScores st !! fst participant with
    | Some existing => deleteDoc accepts existing
    | None => ret tt
    end.

Definition with_error (st : State) (e : string) : State :=
  {| participants := participants st;
     scores := scores st;
     existingScores := existingScores st;
     error := e;
     loadingParticipants := loadingParticipants st |}.

(** [ready] is [db && isAuthReady]; [clock] gives the instant at which the
    record of a participant is built. The boolean tells whether [onSave]
    was called. *)
Definition handleSubmit (ready : bool) (eventId : string) (clock : string -> Z)
    (st : State) (d : Db) : Db * State * bool :=
  let st := with_error st "" in
  if negb ready then (d, with_error st "Database not ready. Please wait.", false)
  else
    match for_of (participants st)
                 (fun participant =>
                    saveScore eventId st (clock (fst participant)) participant) d with
    | (d', Ok _) => (d', st, true)
    | (d', Rejected e) => (d', with_error st ("Failed to save scores: " +:+ e), false)
    end.
End Submit.

End ScoreEntry.

(** ** Cascade deletes ([EventList], [ParticipantList]) *)

Module EventList.
Import Firestore.

Section Delete.
Variable accepts : Op -> bool.

(** The body of the [try] block of the action that [handleDeleteEvent]
    installs. *)
Definition deleteEvent (eventId : string) : Fire unit :=
  await _ <- deleteDoc_event accepts eventId;
  await scoresSnapshot <- getDocs accepts (Some eventId) None;
  forEach_async scoresSnapshot (fun scoreDoc => deleteDoc accepts (fst scoreDoc)).

(** The confirmation prompt, and the action run on confirmation, which
    yields the message shown afterwards. *)
Definition handleDeleteEvent (eventId : string) : string * (Db -> Db * string) :=
  ("Are you sure you want to delete this event? This action cannot be undone.",
   fun d =>
     match deleteEvent eventId d with
     | (d', Ok _) => (d', "Event and its scores deleted successfully!")
     | (d', Rejected e) => (d', "Error deleting event: " +:+ e)
     end).
End Delete.

End EventList.

Module ParticipantList.
Import Firestore.

Section Delete.
Variable accepts : Op -> bool.

Definition deleteParticipant (participantId : string) : Fire unit :=
  await _ <- deleteDoc_participant accepts participantId;
  await scoresSnapshot <- getDocs accepts None (Some participantId);
  forEach_async scoresSnapshot (fun scoreDoc => deleteDoc accepts (fst scoreDoc)).

Definition handleDeleteParticipant (participantId : string)
    : string * (Db -> Db * string) :=
  ("Are you sure you want to delete this participant? This will also delete all their scores.",
   fun d =>
     match deleteParticipant participantId d with
     | (d', Ok _) => (d', "Participant and their scores deleted successfully!")
     | (d', Rejected e) => (d', "Error deleting participant: " +:+ e)
     end).
End Delete.

End ParticipantList.

(** ** The derived views ([EventScoresView], [OverallStandings]) *)

Module EventScoresView.
Import Firestore.

(** Listener on [where("eventId", "==", eventId)]: a row is the document id
    with the document's fields. *)
Definition onSnapshot (docs : list (DocId * ScoreData)) : list (DocId * ScoreData) :=
  Js.sort (fun a b => Js.sub (score (snd b)) (score (snd a))) docs.

Definition eventScores (eventId : string) (d : Db) : list (DocId * ScoreData) :=
  onSnapshot (where_scores (Some eventId) None (sportsday_scores d)).

End EventScoresView.

Module OverallStandings.
Import Firestore.

Record Standing := {
  participantId : string;
  name : string;
  house : string;
  totalScore : Js.number
}.

(** [value || fallback] on an optional string: a missing or empty string
    gives the fallback. *)
Definition or_else (value : option string) (fallback : string) : string :=
  match value with
  | Some EmptyString => fallback
  | Some v => v
  | None => fallback
  end.

Definition participantsMap (docs : list (string * ParticipantData))
    : gmap string ParticipantData :=
  fold_left (fun m doc => <[fst doc := snd doc]> m) docs ∅.

(** The [forEach] over [allScores]: a total that is missing, [0] or [NaN] is
    falsy and is overwritten, any other is added to. *)
Definition participantScores (allScores : list ScoreData) : Js.object Js.number :=
  fold_left
    (fun acc s =>
       match Js.get acc (Firestore.participantId s) with
       | Some t =>
           if Js.truthy t
           then Js.set acc (Firestore.participantId s) (Js.add t (score s))
           else Js.set acc (Firestore.participantId s) (score s)
       | None => Js.set acc (Firestore.participantId s) (score s)
       end)
    allScores [].

Definition total_of (totals : Js.object Js.number) (pid : string) : Js.number :=
  match Js.get totals pid with
  | Some t => t
  | None => Js.NaN
  end.

Definition calculatedStandings (pmap : gmap string ParticipantData)
    (totals : Js.object Js.number) : list Standing :=
  map (fun pid =>
         {| participantId := pid;
            name := or_else (Firestore.name <$> pmap !! pid) "Unknown";
            house := or_else (Firestore.house <$> pmap !! pid) "N/A";
            totalScore := total_of totals pid |})
      (Js.keys totals).

(** What the listener on the scores collection computes from the score
    documents and the participants it fetched. *)
Definition standings (participantDocs : list (string * ParticipantData))
    (scoreDocs : list (DocId * ScoreData)) : list Standing :=
  let allScores := map snd scoreDocs in
  Js.sort (fun a b => Js.sub (totalScore b) (totalScore a))
          (calculatedStandings (participantsMap participantDocs)
                               (participantScores allScores)).

(** The listener itself: the participants are fetched on every snapshot. *)
Definition onSnapshot (accepts : Op -> bool) (scoreDocs : list (DocId * ScoreData))
    : Fire (list Standing) :=
  await participantsSnapshot <- getDocs_participants accepts;
  ret (standings participantsSnapshot scoreDocs).

End OverallStandings.

(** ** The stopwatch ([Stopwatch])

    Times are integer milliseconds. Besides the component's state and refs
    the record holds the intervals the browser is running for it. *)

Module Stopwatch.
Import Firestore.

Record State := {
  isRunning : bool;
  elapsedTime : Z;
  laps : list Z;
  intervalRef : option nat;
  startTimeRef : Z;
  selectedEvent : string;
  selectedParticipant : string;
  saveMessage : string;
  intervals : list nat;
  nextInterval : nat
}.

Definition initial : State :=
  {| isRunning := false;
     elapsedTime := 0;
     laps := [];
     intervalRef := None;
     startTimeRef := 0;
     selectedEvent := "";
     selectedParticipant := "";
     saveMessage := "";
     intervals := [];
     nextInterval := 1 |}.

(** [clearInterval(intervalRef.current)]; clearing [null] or an id that is not
    running does nothing. *)
Definition clearInterval (st : State) : State :=
  match intervalRef st with
  | None => st
  | Some id =>
      {| isRunning := isRunning st;
         elapsedTime := elapsedTime st;
         laps := laps st;
         intervalRef := intervalRef st;
         startTimeRef := startTimeRef st;
         selectedEvent := selectedEvent st;
         selectedParticipant := selectedParticipant st;
         saveMessage := saveMessage st;
         intervals := List.filter (fun i => negb (Nat.eqb i id)) (intervals st);
         nextInterval := nextInterval st |}
  end.

(** The body of the sampling effect, run at [now]. *)
Definition effect (now : Z) (st : State) : State :=
  if isRunning st then
    {| isRunning := isRunning st;
       elapsedTime := elapsedTime st;
       laps := laps st;
       intervalRef := Some (nextInterval st);
       startTimeRef := now - elapsedTime st;
       selectedEvent := selectedEvent st;
       selectedParticipant := selectedParticipant st;
       saveMessage := saveMessage st;
       intervals := nextInterval st :: intervals st;
       nextInterval := S (nextInterval st) |}
  else clearInterval st.

(** After a state change React re-renders; when a dependency of the effect,
    [isRunning] or [elapsedTime], differs from the previous render, the
    cleanup of the previous effect runs and then the effect. *)
Definition render (now : Z) (prev next : State) : State :=
  if Bool.eqb (isRunning prev) (isRunning next)
     && (elapsedTime prev =? elapsedTime next)%Z
  then next
  else effect now (clearInterval next).

Definition mount (now : Z) : State := effect now initial.

Definition startStopwatch (st : State) : State :=
  {| isRunning := true;
     elapsedTime := elapsedTime st;
     laps := laps st;
     intervalRef := intervalRef st;
     startTimeRef := startTimeRef st;
     selectedEvent := selectedEvent st;
     selectedParticipant := selectedParticipant st;
     saveMessage := "";
     intervals := intervals st;
     nextInterval := nextInterval st |}.

Definition stopStopwatch (st : State) : State :=
  {| isRunning := false;
     elapsedTime := elapsedTime st;
     laps := laps st;
     intervalRef := intervalRef st;
     startTimeRef := startTimeRef st;
     selectedEvent := selectedEvent st;
     selectedParticipant := selectedParticipant st;
     saveMessage := saveMessage st;
     intervals := intervals st;
     nextInterval := nextInterval st |}.

Definition resetStopwatch (st : State) : State :=
  {| isRunning := false;
     elapsedTime := 0;
     laps := [];
     intervalRef := intervalRef st;
     startTimeRef := startTimeRef st;
     selectedEvent := selectedEvent st;
     selectedParticipant := selectedParticipant st;
     saveMessage := "";
     intervals := intervals st;
     nextInterval := nextInterval st |}.

Definition lapStopwatch (st : State) : State :=
  if isRunning st then
    {| isRunning := isRunning st;
       elapsedTime := elapsedTime st;
       laps := laps st ++ [elapsedTime st];
       intervalRef := intervalRef st;
       startTimeRef := startTimeRef st;
       selectedEvent := selectedEvent st;
       selectedParticipant := selectedParticipant st;
       saveMessage := saveMessage st;
       intervals := intervals st;
       nextInterval := nextInterval st |}
  else st.

(** The interval callback: [setElapsedTime(Date.now() - startTimeRef.current)]. *)
Definition sample (now : Z) (st : State) : State :=
  {| isRunning := isRunning st;
     elapsedTime := now - startTimeRef st;
     laps := laps st;
     intervalRef := intervalRef st;
     startTimeRef := startTimeRef st;
     selectedEvent := selectedEvent st;
     selectedParticipant := selectedParticipant st;
     saveMessage := saveMessage st;
     intervals := intervals st;
     nextInterval := nextInterval st |}.

Definition with_selection (event participant : string) (st : State) : State :=
  {| isRunning := isRunning st;
     elapsedTime := elapsedTime st;
     laps := laps st;
     intervalRef := intervalRef st;
     startTimeRef := startTimeRef st;
     selectedEvent := event;
     selectedParticipant := participant;
     saveMessage := saveMessage st;
     intervals := intervals st;
     nextInterval := nextInterval st |}.

Definition with_message (st : State) (m : string) : State :=
  {| isRunning := isRunning st;
     elapsedTime := elapsedTime st;
     laps := laps st;
     intervalRef := intervalRef st;
     startTimeRef := startTimeRef st;
     selectedEvent := selectedEvent st;
     selectedParticipant := selectedParticipant st;
     saveMessage := m;
     intervals := intervals st;
     nextInterval := nextInterval st |}.

(** What can happen to a mounted stopwatch: a button, a choice in one of the
    two selects, or an interval of the browser firing. *)
Inductive Event :=
| Start
| Stop
| Reset
| Lap
| Tick (id : nat)
| SelectEvent (id : string)
| SelectParticipant (id : string).

Definition handle (now : Z) (e : Event) (st : State) : State :=
  match e with
  | Start => startStopwatch st
  | Stop => stopStopwatch st
  | Reset => resetStopwatch st
  | Lap => lapStopwatch st
  | Tick id =>
      if existsb (Nat.eqb id) (intervals st) then sample now st else st
  | SelectEvent id => with_selection id (selectedParticipant st) st
  | SelectParticipant id => with_selection (selectedEvent st) id st
  end.

(** An event is handled and the update committed before the next one. *)
Definition step (now : Z) (e : Event) (st : State) : State :=
  render now st (handle now e st).

Inductive reachable : State -> Prop :=
| reach_mount now : reachable (mount now)
| reach_step now e st : reachable st -> reachable (step now e st).

(** [ready] is [db && isAuthReady], [now] the instant of [new Date()]. *)
Definition handleSaveScore (accepts : Op -> bool) (ready : bool) (now : Z)
    (st : State) (d : Db) : Db * State :=
  if String.eqb (selectedEvent st) "" || String.eqb (selectedParticipant st) ""
  then (d, with_message st "Please select both an event and a participant.")
  else if (elapsedTime st =? 0)%Z
  then (d, with_message st "Stopwatch time is 0. Please run the stopwatch first.")
  else if negb ready
  then (d, with_message st "Database not ready. Please wait.")
  else
    let scoreInSeconds := Js.Num (inject_Z (elapsedTime st) / 1000) in
    let save : Fire string :=
      await existingScores <-
        getDocs accepts (Some (selectedEvent st)) (Some (selectedParticipant st));
      let scoreData :=
        {| eventId := selectedEvent st;
           participantId := selectedParticipant st;
           score := scoreInSeconds;
           timestamp := now |} in
      match existingScores with
      | doc :: _ =>
          await _ <- updateDoc accepts (fst doc) scoreData;
          ret "Score updated successfully!"
      | [] =>
          await _ <- addDoc accepts scoreData;
          ret "Score saved successfully!"
      end in
    match save d with
    | (d', Ok m) => (d', with_message st m)
    | (d', Rejected e) => (d', with_message st ("Failed to save score: " +:+ e))
    end.

End Stopwatch.

(** ** Vocabulary of the statements *)

Module Spec.
Import Firestore.

(** An unsigned decimal numeral: digits with at most one point among them. *)
Definition unsigned_decimal (s : string) : Prop :=
  exists a b, Js.all_digits a = true /\ Js.all_digits b = true /\
              (s = a +:+ b \/ s = a +:+ "." +:+ b).

(** The score documents of an (event, participant) pair. *)
Definition for_pair (ev pid : string) (doc : DocId * ScoreData) : bool :=
  String.eqb (eventId (snd doc)) ev && String.eqb (participantId (snd doc)) pid.

Definition records (ev pid : string) (d : Db) : list (DocId * ScoreData) :=
  List.filter (for_pair ev pid) (sportsday_scores d).

Definition at_most_one_per_pair (d : Db) : Prop :=
  forall ev pid, (length (records ev pid d) <= 1)%nat.

(** A well-kept score collection: document ids are unique and no pair has
    two records. *)
Definition well_kept (d : Db) : Prop :=
  List.NoDup (map fst (sportsday_scores d)) /\ at_most_one_per_pair d.

(** The entry of a participant in the index of the score form agrees with
    the store. *)
Definition index_current (ev : string) (index : gmap string DocId) (d : Db)
    (pid : string) : Prop :=
  match index !! pid with
  | Some id => exists old, In (id, old) (records ev pid d)
  | None => records ev pid d = []
  end.

(** The score documents with the fields of document [id] set to [data]. *)
Definition rewritten (id : DocId) (data : ScoreData)
    (l : list (DocId * ScoreData)) : list (DocId * ScoreData) :=
  map (fun doc => if Nat.eqb (fst doc) id then (id, data) else doc) l.

(** The score documents without document [id]. *)
Definition without (id : DocId) (l : list (DocId * ScoreData))
    : list (DocId * ScoreData) :=
  List.filter (fun doc => negb (Nat.eqb (fst doc) id)) l.

(** The comparator [(a, b) => f(b) - f(a)]. *)
Definition highest_first {A : Type} (f : A -> Js.number) (a b : A) : Js.number :=
  Js.sub (f b) (f a).

(** Descending order of the numbers that [f] reads off the elements. *)
Definition descending {A : Type} (f : A -> Js.number) (a b : A) : Prop :=
  (Js.value (f b) <= Js.value (f a))%Q.

(** The elements whose number equals [v]. *)
Definition valued {A : Type} (f : A -> Js.number) (v : Q) (a : A) : bool :=
  Qeq_bool (Js.value (f a)) v.



(** One sampling interval while running, none otherwise. *)
Definition sampling_ok (st : Stopwatch.State) : Prop :=
  (Stopwatch.isRunning st = false /\ Stopwatch.intervals st = [])
  \/ (Stopwatch.isRunning st = true /\
      exists id, Stopwatch.intervalRef st = Some id /\ Stopwatch.intervals st = [id]).

End Spec.

(** ** A sports day

    One event, one participant, and two visits to the score form. On the
    first visit both snapshots have arrived before a score is typed and
    saved. On the second visit the form is mounted anew and the score is
    typed and saved after the participants have arrived but before the
    snapshot of the scores has. *)

Module Scenario.
Import Firestore.

Definition takes_all (o : Op) : bool := true.

(** A store that the deletions of score documents do not reach. *)
Definition loses_score_deletes (o : Op) : bool :=
  match o with
  | DeleteScore _ => false
  | _ => true
  end.

Definition localeCompare (a b : string) : Js.number :=
  match String.compare a b with
  | Lt => Js.Num (-1)
  | Eq => Js.Num 0
  | Gt => Js.Num 1
  end.

Definition sprint : string * EventData :=
  ("E1", {| e_name := "Sprint"; e_type := "Track" |}).

Definition ann : string * ParticipantData :=
  ("P1", {| name := "Ann"; house := "Red" |}).

Definition opening : Db :=
  {| sportsday_events := [sprint];
     sportsday_participants := [ann];
     sportsday_scores := [] |}.

Definition first_visit : ScoreEntry.State :=
  ScoreEntry.handleScoreChange "P1" "5"
    (ScoreEntry.onScoresSnapshot
       (where_scores (Some "E1") None (sportsday_scores opening))
       (ScoreEntry.onParticipantsSnapshot localeCompare
          (sportsday_participants opening) ScoreEntry.initial)).

Definition first_save : Db * ScoreEntry.State * bool :=
  ScoreEntry.handleSubmit takes_all true "E1" (fun _ => 100%Z) first_visit opening.

Definition after_first_save : Db := fst (fst first_save).

Definition second_visit : ScoreEntry.State :=
  ScoreEntry.handleScoreChange "P1" "7"
    (ScoreEntry.onParticipantsSnapshot localeCompare
       (sportsday_participants after_first_save) ScoreEntry.initial).

Definition second_save : Db * ScoreEntry.State * bool :=
  ScoreEntry.handleSubmit takes_all true "E1" (fun _ => 200%Z) second_visit
    after_first_save.

Definition after_second_save : Db := fst (fst second_save).

Definition score_of (ev pid : string) (q : Q) (t : Z) : ScoreData :=
  {| eventId := ev; participantId := pid; score := Js.Num q; timestamp := t |}.

Definition one_event : list (DocId * ScoreData) :=
  [(1%nat, score_of "E" "A" 10 0); (2%nat, score_of "E" "B" 20 0);
   (3%nat, score_of "E" "C" 20 0)].


(** A stopwatch started, sampled once at 12.34 s and stopped, with an event
    and a participant chosen. *)
Definition timed : Stopwatch.State :=
  Stopwatch.step 12345 Stopwatch.Stop
    (Stopwatch.step 12340 (Stopwatch.Tick 1)
       (Stopwatch.step 0 Stopwatch.Start
          (Stopwatch.step 0 (Stopwatch.SelectParticipant "P1")
             (Stopwatch.step 0 (Stopwatch.SelectEvent "E1") (Stopwatch.mount 0))))).

End Scenario.

(** ** More of JavaScript's strings

    A character is a code unit below 256. *)

Module JsString.

(** [WhiteSpace] and [LineTerminator] among the code units below 256: tab,
    line feed, vertical tab, form feed, carriage return, space, no-break
    space. *)
Definition is_white_space (c : ascii) : bool :=
  let n := nat_of_ascii c in
  ((9 <=? n)%nat && (n <=? 13)%nat) || Nat.eqb n 32 || Nat.eqb n 160.

Fixpoint trimStart (s : string) : string :=
  match s with
  | String c s' => if is_white_space c then trimStart s' else s
  | EmptyString => EmptyString
  end.

Fixpoint trimEnd (s : string) : string :=
  match s with
  | String c s' =>
      match trimEnd s' with
      | EmptyString => if is_white_space c then EmptyString else String c EmptyString
      | r => String c r
      end
  | EmptyString => EmptyString
  end.

Definition trim (s : string) : string := trimEnd (trimStart s).

(** [String(n)] for an integer. *)
Definition of_integer (n : Z) : string := NilZero.string_of_int (Z.to_int n).

(** [s.padStart(targetLength, c)] for a padding of one character. *)
Definition padStart (targetLength : nat) (c : ascii) (s : string) : string :=
  Nat.iter (targetLength - String.length s) (String c) s.

End JsString.

(** ** The stopwatch display and its two clock readings *)

Module StopwatchView.

(** [Math.floor(x / y)] for integers and positive [y] is [Z.div]; [%] takes
    the sign of the dividend, as [Z.rem]. *)
Definition formatTime (timeInMs : Z) : string :=
  let minutes := (timeInMs / 60000)%Z in
  let seconds := (Z.rem timeInMs 60000 / 1000)%Z in
  let milliseconds := (Z.rem timeInMs 1000 / 10)%Z in
  JsString.padStart 2 "0" (JsString.of_integer minutes) +:+ ":" +:+
  JsString.padStart 2 "0" (JsString.of_integer seconds) +:+ "." +:+
  JsString.padStart 2 "0" (JsString.of_integer milliseconds).

(** An event handled when the clock reads [handled], its update committed
    (render, cleanup, effect) when the clock reads [committed]: the interval
    callback and the effect each call [Date.now()]. *)
Definition step_at (handled committed : Z) (e : Stopwatch.Event)
    (st : Stopwatch.State) : Stopwatch.State :=
  Stopwatch.render committed st (Stopwatch.handle handled e st).

(** The interval of the ref firing. *)
Definition sample_at (readings : Z * Z) (st : Stopwatch.State) : Stopwatch.State :=
  match Stopwatch.intervalRef st with
  | Some id => step_at (fst readings) (snd readings) (Stopwatch.Tick id) st
  | None => st
  end.

(** A run of samples, each with the clock readings of its callback and of
    its commit. *)
Definition samples (run : list (Z * Z)) (st : Stopwatch.State) : Stopwatch.State :=
  fold_left (fun st readings => sample_at readings st) run st.

(** A run of events, each with its two clock readings. *)
Definition steps (run : list (Z * Z * Stopwatch.Event)) (st : Stopwatch.State)
    : Stopwatch.State :=
  fold_left (fun st r => step_at (fst (fst r)) (snd (fst r)) (snd r) st) run st.

Inductive reachable : Stopwatch.State -> Prop :=
| reach_mount now : reachable (Stopwatch.mount now)
| reach_step handled committed e st :
    reachable st -> reachable (step_at handled committed e st).

End StopwatchView.

(** ** Writes to the events and participants collections

    [addDoc] picks the id of the new document on the client and sets the
    document; the id it picks is an argument here. A collection keyed by id
    is read and written like a dictionary: a set replaces in place or
    appends. *)

Module Parents.
Import Firestore.

Inductive Op :=
| SetEvent (id : string) (data : EventData)
| UpdateEvent (id : string) (data : EventData)
| SetParticipant (id : string) (data : ParticipantData)
| UpdateParticipant (id : string) (data : ParticipantData).

Definition with_events (d : Db) (l : list (string * EventData)) : Db :=
  {| sportsday_events := l;
     sportsday_participants := sportsday_participants d;
     sportsday_scores := sportsday_scores d |}.

Definition with_participants (d : Db) (l : list (string * ParticipantData)) : Db :=
  {| sportsday_events := sportsday_events d;
     sportsday_participants := l;
     sportsday_scores := sportsday_scores d |}.

(** Updating a document that is not there fails. *)
Definition commit (o : Op) (d : Db) : result Db :=
  match o with
  | SetEvent id data => Ok (with_events d (Js.set (sportsday_events d) id data))
  | UpdateEvent id data =>
      match Js.get (sportsday_events d) id with
      | Some _ => Ok (with_events d (Js.set (sportsday_events d) id data))
      | None => Rejected "not-found"
      end
  | SetParticipant id data =>
      Ok (with_participants d (Js.set (sportsday_participants d) id data))
  | UpdateParticipant id data =>
      match Js.get (sportsday_participants d) id with
      | Some _ => Ok (with_participants d (Js.set (sportsday_participants d) id data))
      | None => Rejected "not-found"
      end
  end.

Section Client.
Variable accepts : Op -> bool.

Definition request (o : Op) : Fire unit :=
  fun d =>
    if accepts o
    then match commit o d with
         | Ok d' => (d', Ok tt)
         | Rejected e => (d, Rejected e)
         end
    else (d, Rejected "unavailable").
End Client.

End Parents.

(** ** The event and participant forms ([EventForm], [ParticipantForm]) *)

Module EventForm.
Import Firestore.

Record State := { name : string; type : string; error : string }.

(** The state of the form mounted for [eventToEdit]. *)
Definition initial (eventToEdit : option (string * EventData)) : State :=
  match eventToEdit with
  | Some e => {| name := e_name (snd e); type := e_type (snd e); error := "" |}
  | None => {| name := ""; type := ""; error := "" |}
  end.

Definition with_error (st : State) (e : string) : State :=
  {| name := name st; type := type st; error := e |}.

(** [ready] is [db && isAuthReady], [autoId] the id [addDoc] would pick. The
    boolean tells whether [onSave] was called. *)
Definition handleSubmit (accepts : Parents.Op -> bool) (ready : bool)
    (autoId : string) (eventToEdit : option (string * EventData))
    (st : State) (d : Db) : Db * State * bool :=
  if String.eqb (JsString.trim (name st)) ""
     || String.eqb (JsString.trim (type st)) ""
  then (d, with_error st "Event name and type cannot be empty.", false)
  else if negb ready
  then (d, with_error st "Database not ready. Please wait.", false)
  else
    let eventData :=
      {| e_name := JsString.trim (name st); e_type := JsString.trim (type st) |} in
    let write :=
      match eventToEdit with
      | Some e => Parents.request accepts (Parents.UpdateEvent (fst e) eventData)
      | None => Parents.request accepts (Parents.SetEvent autoId eventData)
      end in
    match write d with
    | (d', Ok _) => (d', st, true)
    | (d', Rejected e) => (d', with_error st ("Failed to save event: " +:+ e), false)
    end.

End EventForm.

Module ParticipantForm.
Import Firestore.

Record State := { name : string; house : string; error : string }.

Definition initial (participantToEdit : option (string * ParticipantData)) : State :=
  match participantToEdit with
  | Some p =>
      {| name := Firestore.name (snd p); house := Firestore.house (snd p); error := "" |}
  | None => {| name := ""; house := ""; error := "" |}
  end.

Definition with_error (st : State) (e : string) : State :=
  {| name := name st; house := house st; error := e |}.

Definition handleSubmit (accepts : Parents.Op -> bool) (ready : bool)
    (autoId : string) (participantToEdit : option (string * ParticipantData))
    (st : State) (d : Db) : Db * State * bool :=
  if String.eqb (JsString.trim (name st)) ""
  then (d, with_error st "Participant name cannot be empty.", false)
  else if negb ready
  then (d, with_error st "Database not ready. Please wait.", false)
  else
    let participantData :=
      {| Firestore.name := JsString.trim (name st);
         Firestore.house := JsString.trim (house st) |} in
    let write :=
      match participantToEdit with
      | Some p =>
          Parents.request accepts (Parents.UpdateParticipant (fst p) participantData)
      | None => Parents.request accepts (Parents.SetParticipant autoId participantData)
      end in
    match write d with
    | (d', Ok _) => (d', st, true)
    | (d', Rejected e) =>
        (d', with_error st ("Failed to save participant: " +:+ e), false)
    end.

End ParticipantForm.

(** ** The lists sorted by name ([EventList], [ParticipantList], [Stopwatch]) *)

Module Listing.
Import Firestore.

(** The listener on the events collection: the documents sorted with
    [a.name.localeCompare(b.name)]. *)
Definition events (localeCompare : string -> string -> Js.number)
    (docs : list (string * EventData)) : list (string * EventData) :=
  Js.sort (fun a b => localeCompare (e_name (snd a)) (e_name (snd b))) docs.

Definition participants (localeCompare : string -> string -> Js.number)
    (docs : list (string * ParticipantData)) : list (string * ParticipantData) :=
  Js.sort (fun a b => localeCompare (name (snd a)) (name (snd b))) docs.

End Listing.

(** ** Navigation ([App], [Dashboard]) *)

Module App.

Section Views.
(** What a view is opened on: an event, a participant, or the id and name of
    an event. *)
Variable Data : Type.

Record State := {
  currentView : string;
  eventToEdit : option Data;
  participantToEdit : option Data;
  eventForScoreEntry : option Data;
  eventForScoresView : option Data
}.

Definition initial : State :=
  {| currentView := "dashboard";
     eventToEdit := None;
     participantToEdit := None;
     eventForScoreEntry := None;
     eventForScoresView := None |}.

(** [handleViewChange(view, data = null)]. *)
Definition handleViewChange (view : string) (data : option Data) (st : State) : State :=
  {| currentView := view;
     eventToEdit := if String.eqb view "edit-event" then data else None;
     participantToEdit :=
       if String.eqb view "edit-event" then None
       else if String.eqb view "edit-participant" then data else None;
     eventForScoreEntry :=
       if String.eqb view "edit-event" then None
       else if String.eqb view "edit-participant" then None
       else if String.eqb view "add-score" then data else None;
     eventForScoresView :=
       if String.eqb view "edit-event" then None
       else if String.eqb view "edit-participant" then None
       else if String.eqb view "add-score" then None
       else if String.eqb view "view-event-scores" then data else None |}.

(** The calls of [onViewChange] in [Dashboard]. *)
Inductive Call :=
| ToDashboard
| AddEvent
| AddParticipant
| OpenStopwatch
| EditEvent (event : Data)
| EditParticipant (participant : Data)
| AddScore (event : Data)
| ShowScores (event : Data).

Definition onViewChange (c : Call) (st : State) : State :=
  match c with
  | ToDashboard => handleViewChange "dashboard" None st
  | AddEvent => handleViewChange "add-event" None st
  | AddParticipant => handleViewChange "add-participant" None st
  | OpenStopwatch => handleViewChange "stopwatch" None st
  | EditEvent event => handleViewChange "edit-event" (Some event) st
  | EditParticipant participant =>
      handleViewChange "edit-participant" (Some participant) st
  | AddScore event => handleViewChange "add-score" (Some event) st
  | ShowScores event => handleViewChange "view-event-scores" (Some event) st
  end.

(** What [renderContent] shows. The score views read [.id] and [.name] of
    their event and throw when it is [null]; the forms take a [null] as
    nothing to edit. *)
Inductive Content :=
| ShowEventForm (eventToEdit : option Data)
| ShowParticipantForm (participantToEdit : option Data)
| ShowScoreEntry (event : Data)
| ShowEventScores (event : Data)
| ShowStopwatch
| ShowDashboard
| Throws.

Definition renderContent (st : State) : Content :=
  if String.eqb (currentView st) "add-event" then ShowEventForm None
  else if String.eqb (currentView st) "edit-event" then ShowEventForm (eventToEdit st)
  else if String.eqb (currentView st) "add-participant" then ShowParticipantForm None
  else if String.eqb (currentView st) "edit-participant"
  then ShowParticipantForm (participantToEdit st)
  else if String.eqb (currentView st) "add-score"
  then match eventForScoreEntry st with
       | Some event => ShowScoreEntry event
       | None => Throws
       end
  else if String.eqb (currentView st) "view-event-scores"
  then match eventForScoresView st with
       | Some event => ShowEventScores event
       | None => Throws
       end
  else if String.eqb (currentView st) "stopwatch" then ShowStopwatch
  else ShowDashboard.

Inductive reachable : State -> Prop :=
| reach_initial : reachable initial
| reach_call c st : reachable st -> reachable (onViewChange c st).
End Views.

End App.

(** ** Vocabulary of the further statements *)

Module Terms.
Import Firestore.

(** A string with something in it and no white space around it. *)
Definition tidy (s : string) : Prop := s <> "" /\ JsString.trim s = s.

Definition events_tidy (d : Db) : Prop :=
  Forall (fun doc => tidy (e_name (snd doc)) /\ tidy (e_type (snd doc)))
         (sportsday_events d).

Definition participants_tidy (d : Db) : Prop :=
  Forall (fun doc => tidy (name (snd doc))
                     /\ JsString.trim (house (snd doc)) = house (snd doc))
         (sportsday_participants d).

(** A field of the stopwatch display. *)
Definition padded (n : Z) : string :=
  JsString.padStart 2 "0" (JsString.of_integer n).

(** A score document without its timestamp. *)
Definition untimed (doc : DocId * ScoreData) : DocId * string * string * Js.number :=
  (fst doc, eventId (snd doc), participantId (snd doc), score (snd doc)).

(** A consistent comparison function: what it puts after is not put before,
    and not-after is transitive. *)
Definition consistent {A : Type} (comparefn : A -> A -> Js.number) : Prop :=
  (forall a b, Js.sign (comparefn a b) = Gt -> Js.sign (comparefn b a) <> Gt)
  /\ (forall a b c, Js.sign (comparefn a b) <> Gt -> Js.sign (comparefn b c) <> Gt ->
                    Js.sign (comparefn a c) <> Gt).

Definition not_after {A : Type} (comparefn : A -> A -> Js.number) (a b : A) : Prop :=
  Js.sign (comparefn a b) <> Gt.

(** The content each call of [onViewChange] asks for. *)
Definition asked {Data : Type} (c : App.Call Data) : App.Content Data :=
  match c with
  | App.ToDashboard _ => App.ShowDashboard _
  | App.AddEvent _ => App.ShowEventForm _ None
  | App.AddParticipant _ => App.ShowParticipantForm _ None
  | App.OpenStopwatch _ => App.ShowStopwatch _
  | App.EditEvent _ event => App.ShowEventForm _ (Some event)
  | App.EditParticipant _ participant => App.ShowParticipantForm _ (Some participant)
  | App.AddScore _ event => App.ShowScoreEntry _ event
  | App.ShowScores _ event => App.ShowEventScores _ event
  end.

End Terms.

(** * Properties *)

(** ** Regular expressions and the input filter *)

Section RegexFacts.
Import Regex.

(* stdpp keeps [simpl] from unfolding string concatenation. *)
Local Arguments String.append !_ _ / : simpl nomatch.

Lemma append_eq_empty (u v : string) : u +:+ v = "" -> u = "" /\ v = "".
Proof. destruct u; simpl; intros H; [auto | discriminate]. Qed.

Lemma nullable_matches (r : regex) : nullable r = true <-> matches r "".
Proof.
  split.
  - induction r; simpl; intros H; try discriminate.
    + constructor.
    + apply orb_true_iff in H as [H|H]; [apply MAltL | apply MAltR]; auto.
    + apply andb_true_iff in H as [H1 H2].
      change "" with ("" +:+ ""). constructor; auto.
    + constructor.
  - intros H. remember "" as w eqn:Ew.
    induction H; simpl; try discriminate; auto.
    + rewrite IHmatches; auto.
    + rewrite IHmatches, orb_true_r; auto.
    + apply append_eq_empty in Ew as [-> ->].
      rewrite IHmatches1, IHmatches2; auto.
Qed.

Lemma matches_seq_inv (r s : regex) (w : string) :
  matches (Seq r s) w -> exists u v, w = u +:+ v /\ matches r u /\ matches s v.
Proof. intros H; inversion H; subst; eauto. Qed.

Lemma matches_star_cons (r : regex) (c : ascii) (w : string) :
  matches (Star r) (String c w) ->
  exists u v, w = u +:+ v /\ matches r (String c u) /\ matches (Star r) v.
Proof.
  intros H. remember (Star r) as sr eqn:Er. remember (String c w) as cw eqn:Ew.
  revert w Ew.
  induction H; intros w' Ew; try discriminate.
  injection Er as ->.
  destruct u as [|c' u'].
  - simpl in Ew. apply IHmatches2; auto.
  - simpl in Ew. injection Ew as -> <-. eauto.
Qed.

Lemma deriv_matches (r : regex) : forall c w,
  matches (deriv c r) w <-> matches r (String c w).
Proof.
  induction r as [| |p|r1 IH1 r2 IH2|r1 IH1 r2 IH2|r IH]; intros c w; simpl.
  - split; intros H; inversion H.
  - split; intros H; inversion H.
  - destruct (p c) eqn:Hp; split; intros H; inversion H; subst.
    + constructor; auto.
    + constructor.
    + congruence.
  - split; intros H; inversion H; subst.
    + apply MAltL, IH1; auto.
    + apply MAltR, IH2; auto.
    + apply MAltL, IH1; auto.
    + apply MAltR, IH2; auto.
  - destruct (nullable r1) eqn:Hn.
    + split; intros H.
      * inversion H; subst.
        -- apply matches_seq_inv in H3 as (u & v & -> & Hu & Hv).
           change (String c (u +:+ v)) with (String c u +:+ v).
           constructor; [apply IH1|]; auto.
        -- change (String c w) with ("" +:+ String c w).
           constructor; [apply nullable_matches | apply IH2]; auto.
      * apply matches_seq_inv in H as (u & v & E & Hu & Hv).
        destruct u as [|c' u']; simpl in E.
        -- subst v. apply MAltR, IH2; auto.
        -- injection E as -> ->. apply MAltL. constructor; [apply IH1|]; auto.
    + split; intros H.
      * apply matches_seq_inv in H as (u & v & -> & Hu & Hv).
        change (String c (u +:+ v)) with (String c u +:+ v).
        constructor; [apply IH1|]; auto.
      * apply matches_seq_inv in H as (u & v & E & Hu & Hv).
        destruct u as [|c' u']; simpl in E.
        -- apply nullable_matches in Hu. congruence.
        -- injection E as -> ->. constructor; [apply IH1|]; auto.
  - split; intros H.
    + apply matches_seq_inv in H as (u & v & -> & Hu & Hv).
      change (String c (u +:+ v)) with (String c u +:+ v).
      constructor; [apply IH|]; auto.
    + apply matches_star_cons in H as (u & v & -> & Hu & Hv).
      constructor; [apply IH|]; auto.
Qed.

Lemma test_matches (r : regex) (s : string) : test r s = true <-> matches r s.
Proof.
  revert r. induction s as [|c s IH]; intros r; simpl.
  - apply nullable_matches.
  - rewrite IH. apply deriv_matches.
Qed.

Lemma star_digits (s : string) :
  matches (Star (Chr Js.is_digit)) s <-> Js.all_digits s = true.
Proof.
  split.
  - intros H. remember (Star (Chr Js.is_digit)) as sr eqn:Er.
    induction H; try discriminate; [reflexivity|].
    injection Er as ->. inversion H as [|p c Hc| | | | |]; subst. simpl.
    rewrite Hc. simpl. auto.
  - induction s as [|c s IH]; simpl; intros H.
    + constructor.
    + apply andb_true_iff in H as [Hc Hs].
      change (String c s) with (String c "" +:+ s).
      constructor; [constructor|]; auto.
Qed.

Lemma opt_dot (s : string) :
  matches (Opt (Chr Js.is_dot)) s <-> s = "" \/ s = ".".
Proof.
  unfold Opt. split.
  - intros H; inversion H as [| |r s' w Hw|r s' w Hw| | |]; subst.
    + inversion Hw as [|p c Hc| | | | |]; subst. right.
      unfold Js.is_dot in Hc. apply Ascii.eqb_eq in Hc. now subst.
    + inversion Hw; subst. now left.
  - intros [-> | ->]; [apply MAltR | apply MAltL]; constructor. reflexivity.
Qed.

Lemma score_pattern_words (s : string) :
  matches ScoreEntry.score_pattern s <-> Spec.unsigned_decimal s.
Proof.
  unfold ScoreEntry.score_pattern, Spec.unsigned_decimal. split.
  - intros H. apply matches_seq_inv in H as (a & v & -> & Ha & Hv).
    apply matches_seq_inv in Hv as (d & b & -> & Hd & Hb).
    apply star_digits in Ha. apply star_digits in Hb.
    exists a, b. repeat split; auto.
    apply opt_dot in Hd as [-> | ->]; simpl; auto.
  - intros (a & b & Ha & Hb & [-> | ->]).
    + constructor; [now apply star_digits|].
      change b with ("" +:+ b).
      constructor; [apply opt_dot; auto | now apply star_digits].
    + constructor; [now apply star_digits|].
      constructor; [apply opt_dot; auto | now apply star_digits].
Qed.

Lemma all_digits_app (a b : string) :
  Js.all_digits (a +:+ b) = Js.all_digits a && Js.all_digits b.
Proof.
  induction a as [|c a IH]; simpl; [reflexivity|]. now rewrite IH, andb_assoc.
Qed.

Lemma span_digits_all (a : string) :
  Js.all_digits a = true -> Js.span_digits a = (a, "").
Proof.
  induction a as [|c a IH]; simpl; [reflexivity|].
  intros H. apply andb_true_iff in H as [Hc Ha]. now rewrite Hc, IH.
Qed.

Lemma span_digits_dot (a b : string) :
  Js.all_digits a = true -> Js.span_digits (a +:+ "." +:+ b) = (a, "." +:+ b).
Proof.
  induction a as [|c a IH]; simpl; [reflexivity|].
  intros H. apply andb_true_iff in H as [Hc Ha]. simpl in IH.
  now rewrite Hc, IH.
Qed.

(** Of the candidates the form accepts, only the empty string and the lone
    point do not parse to a number. *)
Lemma accepted_parses (v : string) :
  ScoreEntry.accepted v = true -> v <> "" -> v <> "." ->
  Js.is_num (Js.parseFloat v) = true.
Proof.
  intros Hacc Hne Hdot. unfold ScoreEntry.accepted in Hacc.
  apply orb_true_iff in Hacc as [Hacc|Hacc];
    [apply String.eqb_eq in Hacc; contradiction|].
  apply test_matches, score_pattern_words in Hacc
    as (a & b & Ha & Hb & [-> | ->]); unfold Js.parseFloat.
  - rewrite span_digits_all by (rewrite all_digits_app, Ha, Hb; reflexivity).
    destruct (a +:+ b); [contradiction | reflexivity].
  - rewrite span_digits_dot by exact Ha. simpl.
    rewrite span_digits_all by exact Hb. simpl.
    destruct a, b; try reflexivity. contradiction.
Qed.

End RegexFacts.

(** C6: the score input accepts exactly the empty string and the unsigned
    decimal numerals (digits with at most one point); it accepts "12.5", "0"
    and the empty string and rejects "abc" and "1.2.3"; a rejected candidate
    leaves the form state as it was, an accepted one becomes the typed value
    of its participant. The handler has no access to the store. *)
Theorem score_input_filter :
  (forall value,
     ScoreEntry.accepted value = true <-> value = "" \/ Spec.unsigned_decimal value)
  /\ ScoreEntry.accepted "12.5" = true
  /\ ScoreEntry.accepted "0" = true
  /\ ScoreEntry.accepted "" = true
  /\ ScoreEntry.accepted "abc" = false
  /\ ScoreEntry.accepted "1.2.3" = false
  /\ (forall pid value st,
        ScoreEntry.accepted value = false ->
        ScoreEntry.handleScoreChange pid value st = st)
  /\ (forall pid value st,
        ScoreEntry.accepted value = true ->
        ScoreEntry.scores (ScoreEntry.handleScoreChange pid value st)
        = <[pid := ScoreEntry.Typed value]> (ScoreEntry.scores st)).
Proof.
  split; [|repeat split; try reflexivity].
  - intros value. unfold ScoreEntry.accepted.
    rewrite orb_true_iff, String.eqb_eq, test_matches, score_pattern_words.
    reflexivity.
  - intros pid value st H. unfold ScoreEntry.handleScoreChange. now rewrite H.
  - intros pid value st H. unfold ScoreEntry.handleScoreChange. now rewrite H.
Qed.

(** ** The stopwatch *)

Section StopwatchFacts.
Import Stopwatch.

Lemma clearInterval_fields (st : State) :
  isRunning (clearInterval st) = isRunning st
  /\ elapsedTime (clearInterval st) = elapsedTime st
  /\ laps (clearInterval st) = laps st
  /\ intervalRef (clearInterval st) = intervalRef st.
Proof.
  unfold clearInterval. destruct (intervalRef st) eqn:E; simpl;
    repeat split; auto.
Qed.

Lemma effect_fields (now : Z) (st : State) :
  isRunning (effect now st) = isRunning st
  /\ elapsedTime (effect now st) = elapsedTime st
  /\ laps (effect now st) = laps st.
Proof.
  unfold effect. destruct (isRunning st) eqn:E; simpl; [repeat split; auto|].
  destruct (clearInterval_fields st) as (? & ? & ? & ?). repeat split; congruence.
Qed.

Lemma render_fields (now : Z) (prev next : State) :
  isRunning (render now prev next) = isRunning next
  /\ elapsedTime (render now prev next) = elapsedTime next
  /\ laps (render now prev next) = laps next.
Proof.
  unfold render.
  destruct (Bool.eqb (isRunning prev) (isRunning next)
            && (elapsedTime prev =? elapsedTime next)%Z); [repeat split; reflexivity|].
  destruct (effect_fields now (clearInterval next)) as (-> & -> & ->).
  destruct (clearInterval_fields next) as (? & ? & ? & ?). repeat split; auto.
Qed.

Lemma clearInterval_single (st : State) (id : nat) :
  intervalRef st = Some id -> intervals st = [id] ->
  intervals (clearInterval st) = [].
Proof.
  intros Hr Hi. unfold clearInterval. rewrite Hr. cbn [intervals]. rewrite Hi.
  cbn [List.filter]. now rewrite Nat.eqb_refl.
Qed.

Lemma clearInterval_none (st : State) :
  intervals st = [] -> intervals (clearInterval st) = [].
Proof.
  intros Hi. unfold clearInterval. destruct (intervalRef st); simpl; auto.
  now rewrite Hi.
Qed.

(** Cleanup and effect re-establish the invariant whenever the cleanup finds
    at most the interval of the ref running. *)
Lemma effect_after_cleanup (now : Z) (st : State) :
  intervals (clearInterval st) = [] ->
  Spec.sampling_ok (effect now (clearInterval st)).
Proof.
  intros Hc. unfold effect.
  destruct (clearInterval_fields st) as (Hr & _ & _ & Href).
  destruct (isRunning (clearInterval st)) eqn:E.
  - right. simpl. split; [auto|]. eexists. split; [reflexivity|]. now rewrite Hc.
  - left. split.
    + destruct (clearInterval_fields (clearInterval st)) as (-> & _). auto.
    + now apply clearInterval_none.
Qed.

Lemma cleanup_clears (st : State) (run : bool) :
  (run = false /\ intervals st = []) \/
  (run = true /\ exists id, intervalRef st = Some id /\ intervals st = [id]) ->
  intervals (clearInterval st) = [].
Proof.
  intros [[_ H] | [_ (id & Hr & Hi)]].
  - now apply clearInterval_none.
  - eapply clearInterval_single; eauto.
Qed.

Lemma handle_refs (now : Z) (e : Event) (st : State) :
  intervalRef (handle now e st) = intervalRef st
  /\ intervals (handle now e st) = intervals st.
Proof.
  destruct e; simpl; auto.
  - unfold lapStopwatch. destruct (isRunning st); auto.
  - destruct (existsb _ _); auto.
Qed.

Lemma mount_ok (now : Z) : Spec.sampling_ok (mount now).
Proof. left. split; reflexivity. Qed.

Lemma step_ok (now : Z) (e : Event) (st : State) :
  Spec.sampling_ok st -> Spec.sampling_ok (step now e st).
Proof.
  intros Hst. unfold step, render.
  destruct (handle_refs now e st) as (Href & Hint).
  destruct (Bool.eqb (isRunning st) (isRunning (handle now e st))
            && (elapsedTime st =? elapsedTime (handle now e st))%Z) eqn:Hdeps.
  - apply andb_true_iff in Hdeps as [Hrun _]. apply Bool.eqb_prop in Hrun.
    unfold Spec.sampling_ok. rewrite <- Hrun, Href, Hint. exact Hst.
  - apply effect_after_cleanup.
    apply (cleanup_clears _ (isRunning st)).
    rewrite Href, Hint. exact Hst.
Qed.

Lemma reachable_ok (st : State) : reachable st -> Spec.sampling_ok st.
Proof.
  induction 1 as [now | now e st _ IH]; [apply mount_ok | now apply step_ok].
Qed.

End StopwatchFacts.

(** C7: a lap while the stopwatch is not running changes nothing; a lap while
    it runs appends the current elapsed time after the laps already taken
    and leaves the elapsed time alone; a reset, from any state, leaves the
    stopwatch stopped with elapsed time 0 and no laps. All of it also holds
    after the update is rendered. *)
Theorem stopwatch_lap_reset (now : Z) (st : Stopwatch.State) :
  (Stopwatch.isRunning st = false ->
     Stopwatch.lapStopwatch st = st /\ Stopwatch.step now Stopwatch.Lap st = st)
  /\ (Stopwatch.isRunning st = true ->
        Stopwatch.laps (Stopwatch.step now Stopwatch.Lap st)
        = Stopwatch.laps st ++ [Stopwatch.elapsedTime st]
        /\ Stopwatch.elapsedTime (Stopwatch.step now Stopwatch.Lap st)
           = Stopwatch.elapsedTime st
        /\ Stopwatch.isRunning (Stopwatch.step now Stopwatch.Lap st) = true)
  /\ Stopwatch.elapsedTime (Stopwatch.step now Stopwatch.Reset st) = 0%Z
  /\ Stopwatch.laps (Stopwatch.step now Stopwatch.Reset st) = []
  /\ Stopwatch.isRunning (Stopwatch.step now Stopwatch.Reset st) = false.
Proof.
  unfold Stopwatch.step.
  repeat split.
  - unfold Stopwatch.lapStopwatch. now rewrite H.
  - simpl. replace (Stopwatch.lapStopwatch st) with st
      by (unfold Stopwatch.lapStopwatch; now rewrite H).
    unfold Stopwatch.render. now rewrite Bool.eqb_reflx, Z.eqb_refl.
  - destruct (render_fields now st (Stopwatch.handle now Stopwatch.Lap st)) as (_ & _ & ->).
    simpl. unfold Stopwatch.lapStopwatch. now rewrite H.
  - destruct (render_fields now st (Stopwatch.handle now Stopwatch.Lap st)) as (_ & -> & _).
    simpl. unfold Stopwatch.lapStopwatch. now rewrite H.
  - destruct (render_fields now st (Stopwatch.handle now Stopwatch.Lap st)) as (-> & _ & _).
    simpl. unfold Stopwatch.lapStopwatch. now rewrite H.
  - now destruct (render_fields now st (Stopwatch.handle now Stopwatch.Reset st)) as (_ & -> & _).
  - now destruct (render_fields now st (Stopwatch.handle now Stopwatch.Reset st)) as (_ & _ & ->).
  - now destruct (render_fields now st (Stopwatch.handle now Stopwatch.Reset st)) as (-> & _ & _).
Qed.

(** C9: in every state the mounted stopwatch can reach, a sampling interval
    is running only if the stopwatch is running, and stopping or resetting
    leaves no interval running. *)
Theorem sampling_only_while_running (st : Stopwatch.State) :
  Stopwatch.reachable st ->
  (Stopwatch.intervals st <> [] -> Stopwatch.isRunning st = true)
  /\ (forall now, Stopwatch.intervals (Stopwatch.step now Stopwatch.Stop st) = [])
  /\ (forall now, Stopwatch.intervals (Stopwatch.step now Stopwatch.Reset st) = []).
Proof.
  intros Hreach.
  assert (Hno : forall st', Spec.sampling_ok st' -> Stopwatch.isRunning st' = false ->
                            Stopwatch.intervals st' = []).
  { intros st' [[_ H] | [Hr _]] Hf; [auto | congruence]. }
  pose proof (reachable_ok st Hreach) as Hok.
  split; [|split].
  - destruct Hok as [[_ H] | [H _]]; [congruence | auto].
  - intros now. apply Hno; [now apply step_ok|]. unfold Stopwatch.step.
    now destruct (render_fields now st (Stopwatch.handle now Stopwatch.Stop st)) as (-> & _).
  - intros now. apply Hno; [now apply step_ok|]. unfold Stopwatch.step.
    now destruct (render_fields now st (Stopwatch.handle now Stopwatch.Reset st)) as (-> & _).
Qed.

Lemma sampling_only_while_running_witness :
  Stopwatch.isRunning (Stopwatch.step 5 Stopwatch.Start (Stopwatch.mount 0)) = true.
Proof.
  apply (sampling_only_while_running
           (Stopwatch.step 5 Stopwatch.Start (Stopwatch.mount 0))).
  - apply Stopwatch.reach_step, Stopwatch.reach_mount.
  - vm_compute. discriminate.
Defined.

(** C10: with no event chosen, no participant chosen or an elapsed time of 0,
    saving the stopwatch time sends nothing to the store, whatever the store
    would take: the collections are as before and only the message
    changes, to the one explaining the refusal. *)
Theorem stopwatch_save_refused (accepts : Firestore.Op -> bool) (ready : bool)
    (now : Z) (st : Stopwatch.State) (d : Firestore.Db) :
  Stopwatch.selectedEvent st = "" \/ Stopwatch.selectedParticipant st = ""
  \/ Stopwatch.elapsedTime st = 0%Z ->
  exists m,
    Stopwatch.handleSaveScore accepts ready now st d = (d, Stopwatch.with_message st m)
    /\ (m = "Please select both an event and a participant."
        \/ m = "Stopwatch time is 0. Please run the stopwatch first.")
    /\ (Stopwatch.selectedEvent st = "" \/ Stopwatch.selectedParticipant st = "" ->
        m = "Please select both an event and a participant.").
Proof.
  intros H. unfold Stopwatch.handleSaveScore.
  destruct (String.eqb (Stopwatch.selectedEvent st) ""
            || String.eqb (Stopwatch.selectedParticipant st) "") eqn:Hsel.
  - eexists. split; [reflexivity|]. split; auto.
  - apply orb_false_iff in Hsel as [He Hp].
    apply String.eqb_neq in He, Hp.
    destruct H as [H | [H | H]]; try contradiction.
    rewrite H. simpl.
    eexists. split; [reflexivity|]. split; auto.
    intros [? | ?]; contradiction.
Qed.

Lemma stopwatch_save_refused_witness :
  exists m,
    Stopwatch.handleSaveScore (fun _ => true) true 7
      (Stopwatch.with_selection "E1" "P1" Stopwatch.initial)
      {| Firestore.sportsday_events := [];
         Firestore.sportsday_participants := [];
         Firestore.sportsday_scores := [] |}
    = ({| Firestore.sportsday_events := [];
          Firestore.sportsday_participants := [];
          Firestore.sportsday_scores := [] |},
       Stopwatch.with_message (Stopwatch.with_selection "E1" "P1" Stopwatch.initial) m)
    /\ (m = "Please select both an event and a participant."
        \/ m = "Stopwatch time is 0. Please run the stopwatch first.")
    /\ (Stopwatch.selectedEvent (Stopwatch.with_selection "E1" "P1" Stopwatch.initial) = ""
        \/ Stopwatch.selectedParticipant
             (Stopwatch.with_selection "E1" "P1" Stopwatch.initial) = "" ->
        m = "Please select both an event and a participant.").
Proof.
  apply (stopwatch_save_refused (fun _ => true) true 7
           (Stopwatch.with_selection "E1" "P1" Stopwatch.initial)).
  right. right. reflexivity.
Defined.

(** ** Sorting by a number, highest first *)

Section SortFacts.
Context {A : Type} (f : A -> Js.number).

Lemma insert_perm (comparefn : A -> A -> Js.number) (x : A) (l : list A) :
  Permutation (Js.insert comparefn x l) (x :: l).
Proof.
  induction l as [|y l IH]; simpl; [reflexivity|].
  destruct (Js.sign (comparefn x y)); try reflexivity.
  rewrite IH. apply perm_swap.
Qed.

Lemma sort_perm (comparefn : A -> A -> Js.number) (l : list A) :
  Permutation (Js.sort comparefn l) l.
Proof.
  induction l as [|x l IH]; simpl; [reflexivity|].
  rewrite insert_perm. now constructor.
Qed.

Lemma sign_highest_first_Gt (x y : A) :
  Js.is_num (f x) = true -> Js.is_num (f y) = true ->
  Js.sign (Spec.highest_first f x y) = Gt -> (Js.value (f x) < Js.value (f y))%Q.
Proof.
  unfold Spec.highest_first. destruct (f x) as [qx|], (f y) as [qy|]; try discriminate.
  intros _ _. simpl. rewrite <- Qgt_alt. lra.
Qed.

Lemma sign_highest_first_not_Gt (x y : A) :
  Js.is_num (f x) = true -> Js.is_num (f y) = true ->
  Js.sign (Spec.highest_first f x y) <> Gt -> (Js.value (f y) <= Js.value (f x))%Q.
Proof.
  unfold Spec.highest_first. destruct (f x) as [qx|], (f y) as [qy|]; try discriminate.
  intros _ _. simpl. rewrite <- Qle_alt. lra.
Qed.

Lemma insert_sorted (x : A) (l : list A) :
  Js.is_num (f x) = true ->
  Forall (fun a => Js.is_num (f a) = true) l ->
  StronglySorted (Spec.descending f) l ->
  StronglySorted (Spec.descending f) (Js.insert (Spec.highest_first f) x l).
Proof.
  intros Hx Hl Hs. induction Hs as [|y l Hs IH Hy]; simpl.
  - constructor; constructor.
  - inversion Hl as [|? ? Hny Hnl]; subst.
    destruct (Js.sign (Spec.highest_first f x y)) eqn:E.
    + assert (Hxy : Spec.descending f x y)
        by (apply sign_highest_first_not_Gt; auto; congruence).
      constructor; [constructor; auto|]. constructor; [auto|].
      eapply List.Forall_impl; [|exact Hy]. unfold Spec.descending in *.
      intros z Hz. lra.
    + assert (Hxy : Spec.descending f x y)
        by (apply sign_highest_first_not_Gt; auto; congruence).
      constructor; [constructor; auto|]. constructor; [auto|].
      eapply List.Forall_impl; [|exact Hy]. unfold Spec.descending in *.
      intros z Hz. lra.
    + constructor; [auto|].
      apply sign_highest_first_Gt in E; auto.
      eapply Permutation_Forall; [symmetry; apply insert_perm|].
      constructor; [unfold Spec.descending; lra | exact Hy].
Qed.

Lemma sort_sorted (l : list A) :
  Forall (fun a => Js.is_num (f a) = true) l ->
  StronglySorted (Spec.descending f) (Js.sort (Spec.highest_first f) l).
Proof.
  induction 1 as [|x l Hx Hl IH]; simpl; [constructor|].
  apply insert_sorted; auto.
  eapply Permutation_Forall; [symmetry; apply sort_perm | exact Hl].
Qed.

(** Two elements with the same number are never exchanged. *)
Lemma valued_not_Gt (v : Q) (x y : A) :
  Spec.valued f v x = true -> Spec.valued f v y = true ->
  Js.sign (Spec.highest_first f x y) <> Gt.
Proof.
  unfold Spec.valued, Spec.highest_first. intros Hx Hy.
  apply Qeq_bool_iff in Hx, Hy.
  destruct (f x) as [qx|], (f y) as [qy|]; simpl in *; try discriminate.
  rewrite <- Qle_alt. lra.
Qed.

Lemma insert_stable (v : Q) (x : A) (l : list A) :
  List.filter (Spec.valued f v) (Js.insert (Spec.highest_first f) x l)
  = List.filter (Spec.valued f v) (x :: l).
Proof.
  induction l as [|y l IH]; [reflexivity|].
  cbn [Js.insert]. destruct (Js.sign (Spec.highest_first f x y)) eqn:E; try reflexivity.
  cbn [List.filter] in *. rewrite IH.
  destruct (Spec.valued f v x) eqn:Hx, (Spec.valued f v y) eqn:Hy; try reflexivity.
  exfalso. now apply (valued_not_Gt v x y).
Qed.

Lemma sort_stable (v : Q) (l : list A) :
  List.filter (Spec.valued f v) (Js.sort (Spec.highest_first f) l)
  = List.filter (Spec.valued f v) l.
Proof.
  induction l as [|x l IH]; [reflexivity|].
  cbn [Js.sort fold_right]. rewrite insert_stable.
  cbn [List.filter]. fold (Js.sort (Spec.highest_first f) l). now rewrite IH.
Qed.
End SortFacts.

(** C5: the ranking of an event is its score records, each once, in
    descending order of score, records with equal scores in the order of the
    snapshot; with A:10, B:20, C:20 in that order it is B, C, A. The scores
    are numbers. *)
Theorem event_ranking_sorted_stable
    (docs : list (Firestore.DocId * Firestore.ScoreData)) :
  Forall (fun doc => Js.is_num (Firestore.score (snd doc)) = true) docs ->
  Permutation (EventScoresView.onSnapshot docs) docs
  /\ StronglySorted (Spec.descending (fun doc => Firestore.score (snd doc)))
                    (EventScoresView.onSnapshot docs)
  /\ (forall v,
        List.filter (Spec.valued (fun doc => Firestore.score (snd doc)) v)
                    (EventScoresView.onSnapshot docs)
        = List.filter (Spec.valued (fun doc => Firestore.score (snd doc)) v) docs)
  /\ (forall eventId d,
        EventScoresView.eventScores eventId d
        = EventScoresView.onSnapshot
            (List.filter (fun doc => String.eqb (Firestore.eventId (snd doc)) eventId)
                         (Firestore.sportsday_scores d)))
  /\ (forall a b c t,
        EventScoresView.onSnapshot
          [(1, {| Firestore.eventId := "E"; Firestore.participantId := a;
                   Firestore.score := Js.Num 10; Firestore.timestamp := t |});
           (2, {| Firestore.eventId := "E"; Firestore.participantId := b;
                   Firestore.score := Js.Num 20; Firestore.timestamp := t |});
           (3, {| Firestore.eventId := "E"; Firestore.participantId := c;
                   Firestore.score := Js.Num 20; Firestore.timestamp := t |})]
        = [(2, {| Firestore.eventId := "E"; Firestore.participantId := b;
                   Firestore.score := Js.Num 20; Firestore.timestamp := t |});
           (3, {| Firestore.eventId := "E"; Firestore.participantId := c;
                   Firestore.score := Js.Num 20; Firestore.timestamp := t |});
           (1, {| Firestore.eventId := "E"; Firestore.participantId := a;
                   Firestore.score := Js.Num 10; Firestore.timestamp := t |})]).
Proof.
  intros Hnum. unfold EventScoresView.onSnapshot.
  split; [apply sort_perm|].
  split; [now apply (sort_sorted (fun doc => Firestore.score (snd doc)))|].
  split; [intros v; apply (sort_stable (fun doc => Firestore.score (snd doc)))|].
  split; [|reflexivity].
  intros eventId d. unfold EventScoresView.eventScores, EventScoresView.onSnapshot,
    Firestore.where_scores.
  f_equal. apply List.filter_ext. intros doc. simpl. now rewrite andb_true_r.
Qed.

(** ** Objects and the tally of the standings *)

Section ObjectFacts.
Context {V : Type}.
Implicit Types (o : Js.object V) (k : string) (v : V).









End ObjectFacts.

Section TallyFacts.
Import Firestore OverallStandings.







End TallyFacts.

Section StandingsFacts.
Import Firestore OverallStandings.




End StandingsFacts.


(** ** The store *)

Section StoreFacts.
Import Firestore.

Lemma in_list_max (x : nat) (l : list nat) : In x l -> (x <= list_max l)%nat.
Proof.
  induction l as [|y l IH]; simpl; [tauto|]. intros [->|H]; [lia|].
  specialize (IH H). lia.
Qed.

Lemma autoId_fresh (d : Db) : ~ In (autoId d) (map fst (sportsday_scores d)).
Proof. unfold autoId. intros H. apply in_list_max in H. lia. Qed.

Lemma has_doc_in (id : DocId) (data : ScoreData) (l : list (DocId * ScoreData)) :
  In (id, data) l -> has_doc id l = true.
Proof.
  intros H. unfold has_doc. apply existsb_exists. exists (id, data).
  split; [auto | apply Nat.eqb_refl].
Qed.

Section Accepting.
Variable accepts : Op -> bool.

Lemma addDoc_accepted (data : ScoreData) (d : Db) :
  accepts (AddScore data) = true ->
  addDoc accepts data d
  = (with_scores d (sportsday_scores d ++ [(autoId d, data)]), Ok tt).
Proof. intros H. unfold addDoc, request. now rewrite H. Qed.

Lemma updateDoc_accepted (id : DocId) (old data : ScoreData) (d : Db) :
  accepts (UpdateScore id data) = true ->
  In (id, old) (sportsday_scores d) ->
  updateDoc accepts id data d
  = (with_scores d (Spec.rewritten id data (sportsday_scores d)), Ok tt).
Proof.
  intros H Hin. unfold updateDoc, request. rewrite H. simpl.
  now rewrite (has_doc_in _ _ _ Hin).
Qed.

Lemma deleteDoc_accepted (id : DocId) (d : Db) :
  accepts (DeleteScore id) = true ->
  deleteDoc accepts id d
  = (with_scores d (Spec.without id (sportsday_scores d)), Ok tt).
Proof. intros H. unfold deleteDoc, request. now rewrite H. Qed.

Lemma getDocs_accepted (byEvent byParticipant : option string) (d : Db) :
  accepts (GetScores byEvent byParticipant) = true ->
  getDocs accepts byEvent byParticipant d
  = (d, Ok (where_scores byEvent byParticipant (sportsday_scores d))).
Proof. intros H. unfold getDocs, bind, request. now rewrite H. Qed.
End Accepting.

Lemma where_pair (ev pid : string) (d : Db) :
  where_scores (Some ev) (Some pid) (sportsday_scores d) = Spec.records ev pid d.
Proof. reflexivity. Qed.

Lemma where_event_in (ev : string) (l : list (DocId * ScoreData))
    (doc : DocId * ScoreData) :
  In doc (where_scores (Some ev) None l) <-> In doc l /\ eventId (snd doc) = ev.
Proof.
  unfold where_scores. rewrite filter_In. simpl.
  rewrite andb_true_r, String.eqb_eq. reflexivity.
Qed.

Lemma records_in (ev pid : string) (d : Db) (doc : DocId * ScoreData) :
  In doc (Spec.records ev pid d)
  <-> In doc (sportsday_scores d)
      /\ eventId (snd doc) = ev /\ participantId (snd doc) = pid.
Proof.
  unfold Spec.records, Spec.for_pair. rewrite filter_In.
  rewrite andb_true_iff, !String.eqb_eq. reflexivity.
Qed.

End StoreFacts.

(** ** The score-entry form *)

Section ScoreEntryFacts.
Import Firestore ScoreEntry.

(** The index a score snapshot leaves in the form: for each participant the
    id of a document of the snapshot, the last one if there are several. *)
Lemma index_fold (docs : list (DocId * ScoreData)) (pid : string) :
  forall m : gmap string DocId,
    match fold_left (fun m doc => <[participantId (snd doc) := fst doc]> m) docs m
          !! pid with
    | Some id =>
        (exists data, In (id, data) docs /\ participantId data = pid)
        \/ ((forall doc, In doc docs -> participantId (snd doc) <> pid)
            /\ m !! pid = Some id)
    | None =>
        (forall doc, In doc docs -> participantId (snd doc) <> pid)
        /\ m !! pid = None
    end.
Proof.
  induction docs as [|[id0 data0] docs IH]; intros m; simpl.
  - destruct (m !! pid) eqn:E; [right|]; split; auto; intros ? [].
  - specialize (IH (<[participantId data0 := id0]> m)).
    destruct (fold_left _ docs _ !! pid) as [id|].
    + destruct IH as [(data & Hin & Hp) | (Hno & Hm)].
      * left. eauto.
      * destruct (string_dec (participantId data0) pid) as [Heq|Hne].
        -- left. exists data0. rewrite <- Heq, lookup_insert_eq in Hm.
           injection Hm as ->. auto.
        -- right. rewrite lookup_insert_ne in Hm by auto. split; [|auto].
           intros doc [<-|H]; [exact Hne | now apply Hno].
    + destruct IH as (Hno & Hm).
      apply lookup_insert_None in Hm as [Hm Hne].
      split; [|auto]. intros doc [<-|H]; [exact Hne | now apply Hno].
Qed.

Lemma snapshot_index (ev pid : string) (d : Db) (st : State) :
  match existingScores
          (onScoresSnapshot (where_scores (Some ev) None (sportsday_scores d)) st)
        !! pid with
  | Some id => exists data, In (id, data) (Spec.records ev pid d)
  | None => Spec.records ev pid d = []
  end.
Proof.
  simpl.
  pose proof (index_fold (where_scores (Some ev) None (sportsday_scores d)) pid ∅) as H.
  destruct (fold_left _ _ _ !! pid) as [id|].
  - destruct H as [(data & Hin & Hp) | (_ & Hm)]; [|now rewrite lookup_empty in Hm].
    exists data. apply where_event_in in Hin as [Hin Hev]. apply records_in. auto.
  - destruct H as (Hno & _).
    destruct (Spec.records ev pid d) as [|doc rest] eqn:E; [reflexivity|].
    assert (Hdoc : In doc (Spec.records ev pid d)) by (rewrite E; now left).
    apply records_in in Hdoc as (Hin & Hev & Hp).
    exfalso. apply (Hno doc); [|exact Hp]. apply where_event_in. auto.
Qed.


End ScoreEntryFacts.


(** ** Saving from the stopwatch *)

Section StopwatchSaveFacts.
Import Firestore Stopwatch.

Lemma records_rewritten_head (ev pid : string) (id : DocId) (old data : ScoreData)
    (rest l : list (DocId * ScoreData)) :
  Spec.for_pair ev pid (id, data) = true ->
  List.filter (Spec.for_pair ev pid) l = (id, old) :: rest ->
  exists rest',
    List.filter (Spec.for_pair ev pid) (Spec.rewritten id data l) = (id, data) :: rest'.
Proof.
  intros Hdata. revert rest.
  induction l as [|doc l IH]; intros rest; [discriminate|].
  change (Spec.rewritten id data (doc :: l))
    with ((if Nat.eqb (fst doc) id then (id, data) else doc)
          :: Spec.rewritten id data l).
  cbn [List.filter].
  destruct (Spec.for_pair ev pid doc) eqn:Hdoc.
  - intros H. injection H as -> _. cbn [fst]. rewrite Nat.eqb_refl, Hdata. eauto.
  - intros H. destruct (IH _ H) as (rest' & Hrest).
    destruct (Nat.eqb (fst doc) id).
    + rewrite Hdata. eauto.
    + rewrite Hdoc. eauto.
Qed.

Lemma records_appended (ev pid : string) (id : DocId) (data : ScoreData)
    (l : list (DocId * ScoreData)) :
  Spec.for_pair ev pid (id, data) = true ->
  List.filter (Spec.for_pair ev pid) l = [] ->
  List.filter (Spec.for_pair ev pid) (l ++ [(id, data)]) = [(id, data)].
Proof.
  intros Hdata Hl. rewrite List.filter_app, Hl. simpl. now rewrite Hdata.
Qed.

(** The record the stopwatch builds. *)
Lemma handleSaveScore_run (accepts : Op -> bool) (now : Z) (st : State) (d : Db) :
  (forall o, accepts o = true) ->
  selectedEvent st <> "" -> selectedParticipant st <> "" -> elapsedTime st <> 0%Z ->
  handleSaveScore accepts true now st d
  = let data := {| eventId := selectedEvent st;
                   participantId := selectedParticipant st;
                   score := Js.Num (inject_Z (elapsedTime st) / 1000);
                   timestamp := now |} in
    match Spec.records (selectedEvent st) (selectedParticipant st) d with
    | doc :: _ =>
        (with_scores d (Spec.rewritten (fst doc) data (sportsday_scores d)),
         with_message st "Score updated successfully!")
    | [] =>
        (with_scores d (sportsday_scores d ++ [(autoId d, data)]),
         with_message st "Score saved successfully!")
    end.
Proof.
  intros Hacc He Hp Ht. unfold handleSaveScore.
  apply String.eqb_neq in He, Hp. apply Z.eqb_neq in Ht.
  rewrite He, Hp, Ht. cbn [orb negb].
  unfold bind at 1. rewrite getDocs_accepted by apply Hacc.
  rewrite where_pair.
  destruct (Spec.records (selectedEvent st) (selectedParticipant st) d)
    as [|[id old] rest] eqn:E.
  - unfold bind, ret. rewrite addDoc_accepted by apply Hacc. reflexivity.
  - assert (Hin : In (id, old) (sportsday_scores d)).
    { assert (H : In (id, old) (Spec.records (selectedEvent st) (selectedParticipant st) d))
        by (rewrite E; now left).
      now apply records_in in H. }
    unfold bind, ret. cbn [fst].
    rewrite (updateDoc_accepted accepts id old) by (auto || apply Hacc).
    reflexivity.
Qed.

End StopwatchSaveFacts.

(** C8: the stopwatch saves its elapsed milliseconds divided by 1000 as the
    score of the chosen event and participant, after asking the store for
    the records of the pair: with none it appends one, otherwise it rewrites
    the first in place; and a second save for the same pair rewrites the
    record the first save wrote, under the same id, creating nothing. The
    store takes the requests. *)
Theorem stopwatch_save_upsert (accepts : Firestore.Op -> bool) (now now2 : Z)
    (st st2 : Stopwatch.State) (d : Firestore.Db) :
  (forall o, accepts o = true) ->
  Stopwatch.selectedEvent st <> "" ->
  Stopwatch.selectedParticipant st <> "" ->
  Stopwatch.elapsedTime st <> 0%Z ->
  Stopwatch.selectedEvent st2 = Stopwatch.selectedEvent st ->
  Stopwatch.selectedParticipant st2 = Stopwatch.selectedParticipant st ->
  Stopwatch.elapsedTime st2 <> 0%Z ->
  let ev := Stopwatch.selectedEvent st in
  let pid := Stopwatch.selectedParticipant st in
  let data :=
    {| Firestore.eventId := ev; Firestore.participantId := pid;
       Firestore.score := Js.Num (inject_Z (Stopwatch.elapsedTime st) / 1000);
       Firestore.timestamp := now |} in
  let data2 :=
    {| Firestore.eventId := ev; Firestore.participantId := pid;
       Firestore.score := Js.Num (inject_Z (Stopwatch.elapsedTime st2) / 1000);
       Firestore.timestamp := now2 |} in
  let first := Stopwatch.handleSaveScore accepts true now st d in
  let second := Stopwatch.handleSaveScore accepts true now2 st2 (fst first) in
  (Spec.records ev pid d = [] ->
     first = (Firestore.with_scores d
                (Firestore.sportsday_scores d ++ [(Firestore.autoId d, data)]),
              Stopwatch.with_message st "Score saved successfully!"))
  /\ (forall id old rest,
        Spec.records ev pid d = (id, old) :: rest ->
        first = (Firestore.with_scores d
                   (Spec.rewritten id data (Firestore.sportsday_scores d)),
                 Stopwatch.with_message st "Score updated successfully!"))
  /\ (exists id,
        In (id, data) (Spec.records ev pid (fst first))
        /\ second
           = (Firestore.with_scores (fst first)
                (Spec.rewritten id data2 (Firestore.sportsday_scores (fst first))),
              Stopwatch.with_message st2 "Score updated successfully!")).
Proof.
  intros Hacc He Hp Ht He2 Hp2 Ht2 ev pid data data2 first second.
  assert (Hdata : Spec.for_pair ev pid (0%nat, data) = true).
  { unfold Spec.for_pair. simpl. now rewrite !String.eqb_refl. }
  assert (Hfirst := handleSaveScore_run accepts now st d Hacc He Hp Ht).
  fold ev pid in Hfirst. cbv zeta in Hfirst. fold data in Hfirst. fold first in Hfirst.
  assert (Hsecond : forall id rest,
            Spec.records ev pid (fst first) = (id, data) :: rest ->
            second = (Firestore.with_scores (fst first)
                        (Spec.rewritten id data2 (Firestore.sportsday_scores (fst first))),
                      Stopwatch.with_message st2 "Score updated successfully!")).
  { intros id rest Hrec. unfold second.
    rewrite handleSaveScore_run; auto; try congruence.
    cbv zeta. rewrite He2, Hp2. fold ev pid. rewrite Hrec. reflexivity. }
  split; [|split].
  - intros Hnone. now rewrite Hnone in Hfirst.
  - intros id old rest Hsome. now rewrite Hsome in Hfirst.
  - destruct (Spec.records ev pid d) as [|[id old] rest] eqn:E.
    + exists (Firestore.autoId d).
      assert (Hrec : Spec.records ev pid (fst first) = [(Firestore.autoId d, data)]).
      { rewrite Hfirst. apply records_appended; auto. }
      split; [rewrite Hrec; now left | now apply (Hsecond _ [])].
    + exists id.
      destruct (records_rewritten_head ev pid id old data rest
                  (Firestore.sportsday_scores d) Hdata E) as (rest' & Hrec).
      assert (Hrec' : Spec.records ev pid (fst first) = (id, data) :: rest').
      { rewrite Hfirst. exact Hrec. }
      split; [rewrite Hrec'; now left | now apply (Hsecond _ rest')].
Qed.

(** ** What the cascade does on a store that takes every request *)

Section CascadeFacts.
Import Firestore.

Variable accepts : Op -> bool.
Hypothesis takes_all : forall o, accepts o = true.

Lemma forEach_async_run {A : Type} (xs : list A) (body : A -> Fire unit) (d : Db) :
  forEach_async xs body d = (fold_left (fun d x => fst (body x d)) xs d, Ok tt).
Proof.
  revert d. induction xs as [|x xs IH]; intros d; [reflexivity|].
  cbn [forEach_async fold_left]. unfold bind, detached. apply IH.
Qed.

Lemma filter_twice {A : Type} (p q : A -> bool) (l : list A) :
  List.filter p (List.filter q l) = List.filter (fun x => q x && p x) l.
Proof.
  induction l as [|x l IH]; [reflexivity|]. cbn [List.filter].
  destruct (q x); cbn [andb List.filter]; [destruct (p x)|]; now rewrite IH.
Qed.

Lemma sweep_scores (docs : list (DocId * ScoreData)) : forall d,
  fold_left (fun d doc => fst (deleteDoc accepts (fst doc) d)) docs d
  = with_scores d
      (List.filter
         (fun x => negb (existsb (fun doc => Nat.eqb (fst x) (fst doc)) docs))
         (sportsday_scores d)).
Proof.
  induction docs as [|doc docs IH]; intros d; cbn [fold_left].
  - destruct d as [ev ps sc]. unfold with_scores. simpl. f_equal.
    symmetry. apply forallb_filter_id. apply forallb_forall. reflexivity.
  - rewrite deleteDoc_accepted by apply takes_all. cbn [fst]. rewrite IH.
    unfold with_scores, Spec.without. cbn [sportsday_scores sportsday_events
      sportsday_participants]. f_equal.
    rewrite filter_twice. apply List.filter_ext. intros x.
    cbn [existsb]. now rewrite negb_orb.
Qed.

Lemma swept (byEvent byParticipant : option string) (l : list (DocId * ScoreData)) :
  where_scores byEvent byParticipant
    (List.filter
       (fun x => negb (existsb (fun doc => Nat.eqb (fst x) (fst doc))
                               (where_scores byEvent byParticipant l)))
       l) = [].
Proof.
  set (docs := where_scores byEvent byParticipant l).
  assert (Hsub : forall x, In x l ->
            field_is byEvent (eventId (snd x))
            && field_is byParticipant (participantId (snd x)) = true ->
            In x docs).
  { intros x Hx He. apply filter_In. auto. }
  clearbody docs. induction l as [|x l IH]; [reflexivity|].
  cbn [List.filter]. cbn beta.
  assert (IH' := IH (fun y Hy => Hsub y (or_intror Hy))).
  match goal with
  | |- context [if negb ?c then _ else _] => destruct c eqn:Ex
  end; cbn [negb]; [exact IH'|].
  unfold where_scores in *. cbn [List.filter]. rewrite IH'.
  destruct (field_is byEvent (eventId (snd x))
            && field_is byParticipant (participantId (snd x))) eqn:Hev;
    [|reflexivity].
  exfalso.
  assert (Hin : In x docs) by (apply Hsub; [now left | exact Hev]).
  apply not_true_iff_false in Ex. apply Ex.
  apply existsb_exists. exists x. split; [exact Hin | apply Nat.eqb_refl].
Qed.

(** With every request taken the event goes, and with it every score that
    names it. *)
Lemma deleteEvent_sweeps (ev : string) (d : Db) :
  exists d',
    snd (EventList.handleDeleteEvent accepts ev) d
    = (d', "Event and its scores deleted successfully!")
    /\ where_scores (Some ev) None (sportsday_scores d') = []
    /\ ~ In ev (map fst (sportsday_events d'))
    /\ sportsday_participants d' = sportsday_participants d.
Proof.
  cbn [snd EventList.handleDeleteEvent]. unfold EventList.deleteEvent.
  unfold bind at 1. unfold deleteDoc_event, request. rewrite takes_all.
  cbn [commit]. unfold bind at 1. rewrite getDocs_accepted by apply takes_all.
  rewrite forEach_async_run, sweep_scores.
  eexists. split; [reflexivity|]. cbn [with_scores sportsday_scores sportsday_events
    sportsday_participants]. split; [apply swept|]. split; [|reflexivity].
  rewrite List.in_map_iff. intros ([k e] & Hk & Hin). simpl in Hk. subst k.
  apply filter_In in Hin as [_ Hne]. simpl in Hne.
  now rewrite String.eqb_refl in Hne.
Qed.

Lemma deleteParticipant_sweeps (pid : string) (d : Db) :
  exists d',
    snd (ParticipantList.handleDeleteParticipant accepts pid) d
    = (d', "Participant and their scores deleted successfully!")
    /\ where_scores None (Some pid) (sportsday_scores d') = []
    /\ ~ In pid (map fst (sportsday_participants d'))
    /\ sportsday_events d' = sportsday_events d.
Proof.
  cbn [snd ParticipantList.handleDeleteParticipant].
  unfold ParticipantList.deleteParticipant.
  unfold bind at 1. unfold deleteDoc_participant, request. rewrite takes_all.
  cbn [commit]. unfold bind at 1. rewrite getDocs_accepted by apply takes_all.
  rewrite forEach_async_run, sweep_scores.
  eexists. split; [reflexivity|]. cbn [with_scores sportsday_scores sportsday_events
    sportsday_participants]. split; [apply swept|]. split; [|reflexivity].
  rewrite List.in_map_iff. intros ([k e] & Hk & Hin). simpl in Hk. subst k.
  apply filter_In in Hin as [_ Hne]. simpl in Hne.
  now rewrite String.eqb_refl in Hne.
Qed.

End CascadeFacts.

(** ** Writes that keep one record per pair *)

Section InvariantFacts.
Import Firestore.

Lemma id_determines (l : list (DocId * ScoreData)) (id : DocId) (a b : ScoreData) :
  List.NoDup (map fst l) -> In (id, a) l -> In (id, b) l -> a = b.
Proof.
  induction l as [|[i x] l IH]; simpl; [tauto|].
  intros Hnd Ha Hb. inversion Hnd as [|? ? Hni Hnd']; subst.
  assert (Hfst : forall y, In (i, y) l -> False).
  { intros y Hy. apply Hni. apply List.in_map_iff. exists (i, y). auto. }
  destruct Ha as [Ha|Ha], Hb as [Hb|Hb].
  - congruence.
  - injection Ha as -> ->. destruct (Hfst _ Hb).
  - injection Hb as -> ->. destruct (Hfst _ Ha).
  - now apply IH.
Qed.

Lemma same_pair (ev pid : string) (a b : ScoreData) (i j : DocId) :
  eventId a = eventId b -> participantId a = participantId b ->
  Spec.for_pair ev pid (i, a) = Spec.for_pair ev pid (j, b).
Proof. unfold Spec.for_pair. simpl. now intros -> ->. Qed.

Lemma filter_map_agree {A : Type} (p : A -> bool) (g : A -> A) (l : list A) :
  (forall x, In x l -> p (g x) = p x) ->
  List.filter p (map g l) = map g (List.filter p l).
Proof.
  induction l as [|x l IH]; intros H; [reflexivity|]. cbn [map List.filter].
  rewrite (H x) by now left. rewrite IH by (intros y Hy; apply H; now right).
  now destruct (p x).
Qed.

Lemma map_fixed {A : Type} (g : A -> A) (l : list A) :
  (forall x, In x l -> g x = x) -> map g l = l.
Proof.
  induction l as [|x l IH]; intros H; [reflexivity|]. cbn [map].
  rewrite (H x) by now left. now rewrite IH by (intros y Hy; apply H; now right).
Qed.

Lemma filter_fixed {A : Type} (p : A -> bool) (l : list A) :
  (forall x, In x l -> p x = true) -> List.filter p l = l.
Proof.
  induction l as [|x l IH]; intros H; [reflexivity|]. cbn [List.filter].
  rewrite (H x) by now left. now rewrite IH by (intros y Hy; apply H; now right).
Qed.

Lemma filter_shorter {A : Type} (p : A -> bool) (l : list A) :
  (length (List.filter p l) <= length l)%nat.
Proof.
  induction l as [|x l IH]; simpl; [lia|]. destruct (p x); simpl; lia.
Qed.

Lemma filter_swap {A : Type} (p q : A -> bool) (l : list A) :
  List.filter p (List.filter q l) = List.filter q (List.filter p l).
Proof.
  rewrite !filter_twice. apply List.filter_ext. intros x. apply andb_comm.
Qed.

Lemma NoDup_fst_filter (p : DocId * ScoreData -> bool) (l : list (DocId * ScoreData)) :
  List.NoDup (map fst l) -> List.NoDup (map fst (List.filter p l)).
Proof.
  induction l as [|x l IH]; simpl; intros H; [constructor|].
  inversion H as [|? ? Hni Hnd]; subst.
  destruct (p x); simpl; [|auto]. constructor; [|auto].
  intros Hin. apply Hni. apply List.in_map_iff in Hin as (y & Hy & Hin).
  apply List.in_map_iff. exists y. apply filter_In in Hin as [Hin _]. auto.
Qed.

Lemma rewritten_ids (id : DocId) (data : ScoreData) (l : list (DocId * ScoreData)) :
  map fst (Spec.rewritten id data l) = map fst l.
Proof.
  unfold Spec.rewritten. rewrite List.map_map. apply map_ext. intros doc.
  cbn beta. destruct (Nat.eqb (fst doc) id) eqn:E; [|reflexivity].
  apply Nat.eqb_eq in E. now rewrite E.
Qed.

(** Appending a record for a pair that has none. *)
Lemma added_well_kept (ev pid : string) (data : ScoreData) (d : Db) :
  eventId data = ev -> participantId data = pid ->
  Spec.well_kept d -> Spec.records ev pid d = [] ->
  Spec.well_kept (with_scores d (sportsday_scores d ++ [(autoId d, data)]))
  /\ forall p', p' <> pid ->
       Spec.records ev p' (with_scores d (sportsday_scores d ++ [(autoId d, data)]))
       = Spec.records ev p' d.
Proof.
  intros He Hp [Hnd Hone] Hnone.
  assert (Hrec : forall e' p',
            Spec.records e' p'
              (with_scores d (sportsday_scores d ++ [(autoId d, data)]))
            = Spec.records e' p' d
              ++ (if Spec.for_pair e' p' (autoId d, data) then [(autoId d, data)] else [])).
  { intros e' p'. unfold Spec.records. cbn [with_scores sportsday_scores].
    rewrite List.filter_app. cbn [List.filter].
    now destruct (Spec.for_pair e' p' (autoId d, data)). }
  split; [split|].
  - cbn [with_scores sportsday_scores]. rewrite List.map_app. cbn [map fst].
    eapply Permutation_NoDup; [apply Permutation_cons_append|].
    constructor; [apply autoId_fresh | exact Hnd].
  - intros e' p'. rewrite Hrec.
    destruct (Spec.for_pair e' p' (autoId d, data)) eqn:E.
    + unfold Spec.for_pair in E. cbn [snd] in E.
      apply andb_true_iff in E as [E1 E2].
      apply String.eqb_eq in E1, E2. rewrite He in E1. rewrite Hp in E2. subst e' p'.
      rewrite Hnone. simpl. lia.
    + rewrite app_nil_r. apply Hone.
  - intros p' Hne. rewrite Hrec.
    assert (Spec.for_pair ev p' (autoId d, data) = false) as ->; [|apply app_nil_r].
    unfold Spec.for_pair. cbn [snd]. rewrite Hp.
    apply andb_false_iff. right. now apply String.eqb_neq.
Qed.

(** Rewriting a record of a pair with data for the same pair. *)
Lemma rewritten_well_kept (ev pid : string) (id : DocId) (old data : ScoreData)
    (d : Db) :
  eventId data = ev -> participantId data = pid ->
  Spec.well_kept d -> In (id, old) (Spec.records ev pid d) ->
  Spec.well_kept (with_scores d (Spec.rewritten id data (sportsday_scores d)))
  /\ forall p', p' <> pid ->
       Spec.records ev p'
         (with_scores d (Spec.rewritten id data (sportsday_scores d)))
       = Spec.records ev p' d.
Proof.
  intros He Hp [Hnd Hone] Hin.
  apply records_in in Hin as (Hin & Heo & Hpo). cbn [snd] in Heo, Hpo.
  set (rw := fun doc : DocId * ScoreData =>
               if Nat.eqb (fst doc) id then (id, data) else doc).
  assert (Hsame : forall e' p' doc, In doc (sportsday_scores d) ->
            Spec.for_pair e' p' (rw doc) = Spec.for_pair e' p' doc).
  { intros e' p' [i x] Hdoc. unfold rw. cbn [fst].
    destruct (Nat.eqb i id) eqn:E; [|reflexivity].
    apply Nat.eqb_eq in E. subst i.
    assert (x = old) as -> by (eapply id_determines; eauto).
    apply same_pair; congruence. }
  assert (Hrec : forall e' p',
            Spec.records e' p'
              (with_scores d (Spec.rewritten id data (sportsday_scores d)))
            = map rw (Spec.records e' p' d)).
  { intros e' p'. unfold Spec.records. cbn [with_scores sportsday_scores].
    apply filter_map_agree. intros doc Hdoc. now apply Hsame. }
  split; [split|].
  - cbn [with_scores sportsday_scores]. now rewrite rewritten_ids.
  - intros e' p'. rewrite Hrec, length_map. apply Hone.
  - intros p' Hne. rewrite Hrec. apply map_fixed.
    intros [i x] Hdoc. apply records_in in Hdoc as (Hdoc & _ & Hpx). cbn [snd] in Hpx.
    unfold rw. cbn [fst]. destruct (Nat.eqb i id) eqn:E; [|reflexivity].
    apply Nat.eqb_eq in E. subst i.
    assert (x = old) as -> by (eapply id_determines; eauto). congruence.
Qed.

(** Deleting a record of a pair. *)
Lemma without_well_kept (ev pid : string) (id : DocId) (old : ScoreData) (d : Db) :
  Spec.well_kept d -> In (id, old) (Spec.records ev pid d) ->
  Spec.well_kept (with_scores d (Spec.without id (sportsday_scores d)))
  /\ forall p', p' <> pid ->
       Spec.records ev p' (with_scores d (Spec.without id (sportsday_scores d)))
       = Spec.records ev p' d.
Proof.
  intros [Hnd Hone] Hin.
  apply records_in in Hin as (Hin & Heo & Hpo). cbn [snd] in Heo, Hpo.
  assert (Hrec : forall e' p',
            Spec.records e' p' (with_scores d (Spec.without id (sportsday_scores d)))
            = List.filter (fun doc => negb (Nat.eqb (fst doc) id))
                          (Spec.records e' p' d)).
  { intros e' p'. unfold Spec.records, Spec.without.
    cbn [with_scores sportsday_scores]. apply filter_swap. }
  split; [split|].
  - cbn [with_scores sportsday_scores]. now apply NoDup_fst_filter.
  - intros e' p'. rewrite Hrec.
    etransitivity; [apply filter_shorter | apply Hone].
  - intros p' Hne. rewrite Hrec. apply filter_fixed.
    intros [i x] Hdoc. apply records_in in Hdoc as (Hdoc & _ & Hpx). cbn [snd] in Hpx.
    cbn [fst]. destruct (Nat.eqb i id) eqn:E; [|reflexivity].
    apply Nat.eqb_eq in E. subst i.
    assert (x = old) as -> by (eapply id_determines; eauto). congruence.
Qed.

End InvariantFacts.

Section KeepingFacts.
Import Firestore.

Variable accepts : Op -> bool.

Lemma request_outcome (o : Op) (d : Db) :
  request accepts o d = (d, Rejected "unavailable")
  \/ (exists e, commit o d = Rejected e /\ request accepts o d = (d, Rejected e))
  \/ (exists d', commit o d = Ok d' /\ request accepts o d = (d', Ok tt)).
Proof.
  unfold request. destruct (accepts o); [|now left]. right.
  destruct (commit o d) as [d'|e]; [right | left]; eauto.
Qed.

Lemma commit_update (id : DocId) (data : ScoreData) (d d' : Db) :
  commit (UpdateScore id data) d = Ok d' ->
  d' = with_scores d (Spec.rewritten id data (sportsday_scores d)).
Proof.
  cbn [commit]. destruct (has_doc id (sportsday_scores d)); [|discriminate].
  now intros [= <-].
Qed.

(** One turn of the loop, for a participant whose index entry is current:
    the collection stays well kept and the records of the other participants
    for the event are untouched. *)
Lemma saveScore_keeps (ev : string) (st : ScoreEntry.State) (now : Z)
    (participant : string * ParticipantData) (d : Db) :
  Spec.well_kept d ->
  Spec.index_current ev (ScoreEntry.existingScores st) d (fst participant) ->
  Spec.well_kept (fst (ScoreEntry.saveScore accepts ev st now participant d))
  /\ forall p', p' <> fst participant ->
       Spec.records ev p' (fst (ScoreEntry.saveScore accepts ev st now participant d))
       = Spec.records ev p' d.
Proof.
  intros Hwk Hidx. unfold Spec.index_current in Hidx. unfold ScoreEntry.saveScore.
  destruct (ScoreEntry.filled _);
    destruct (ScoreEntry.existingScores st !! fst participant) as [id|].
  - destruct Hidx as (old & Hin). unfold updateDoc.
    destruct (request_outcome (UpdateScore id {| eventId := ev;
                 participantId := fst participant;
                 score := ScoreEntry.parseFloat (ScoreEntry.scores st !! fst participant);
                 timestamp := now |}) d)
      as [-> | [(e & _ & ->) | (d' & Hc & ->)]]; cbn [fst]; auto.
    apply commit_update in Hc. subst d'.
    now apply rewritten_well_kept with (old := old).
  - unfold addDoc.
    destruct (request_outcome (AddScore {| eventId := ev;
                 participantId := fst participant;
                 score := ScoreEntry.parseFloat (ScoreEntry.scores st !! fst participant);
                 timestamp := now |}) d)
      as [-> | [(e & _ & ->) | (d' & Hc & ->)]]; cbn [fst]; auto.
    cbn [commit] in Hc. injection Hc as <-.
    now apply added_well_kept.
  - destruct Hidx as (old & Hin). unfold deleteDoc.
    destruct (request_outcome (DeleteScore id) d)
      as [-> | [(e & _ & ->) | (d' & Hc & ->)]]; cbn [fst]; auto.
    cbn [commit] in Hc. injection Hc as <-.
    now apply without_well_kept with (old := old).
  - cbn [ret fst]. auto.
Qed.

Lemma for_of_keeps (ev : string) (st : ScoreEntry.State) (clock : string -> Z)
    (ps : list (string * ParticipantData)) : forall d,
  List.NoDup (map fst ps) ->
  Spec.well_kept d ->
  (forall p, In p (map fst ps) ->
             Spec.index_current ev (ScoreEntry.existingScores st) d p) ->
  Spec.well_kept
    (fst (for_of ps
            (fun participant =>
               ScoreEntry.saveScore accepts ev st (clock (fst participant)) participant)
            d)).
Proof.
  induction ps as [|p ps IH]; intros d Hnd Hwk Hidx; [exact Hwk|].
  cbn [map] in Hnd. inversion Hnd as [|? ? Hni Hnd']; subst.
  destruct (saveScore_keeps ev st (clock (fst p)) p d Hwk) as [Hwk' Hrest].
  { apply Hidx. now left. }
  cbn [for_of]. unfold bind.
  destruct (ScoreEntry.saveScore accepts ev st (clock (fst p)) p d) as [d' [[]|e]];
    cbn [fst] in *; [|exact Hwk'].
  apply IH; [exact Hnd' | exact Hwk' |].
  intros p' Hp'. unfold Spec.index_current.
  rewrite Hrest by (intros ->; contradiction).
  apply Hidx. now right.
Qed.

(** Saving the form keeps the collection well kept when the index of the
    form agrees with the store for the participants listed. *)
Lemma handleSubmit_keeps (ready : bool) (ev : string) (clock : string -> Z)
    (st : ScoreEntry.State) (d : Db) :
  Spec.well_kept d ->
  List.NoDup (map fst (ScoreEntry.participants st)) ->
  (forall p, Spec.index_current ev (ScoreEntry.existingScores st) d p) ->
  Spec.well_kept (fst (fst (ScoreEntry.handleSubmit accepts ready ev clock st d))).
Proof.
  intros Hwk Hnd Hidx. unfold ScoreEntry.handleSubmit.
  destruct (negb ready); [exact Hwk|].
  pose proof (for_of_keeps ev (ScoreEntry.with_error st "") clock
                (ScoreEntry.participants st) d Hnd Hwk (fun p _ => Hidx p)) as H.
  cbn [ScoreEntry.with_error ScoreEntry.participants] in *.
  destruct (for_of _ _ d) as [d' [[]|e]]; exact H.
Qed.

(** In particular for a form whose two listeners have delivered the current
    participants and the current scores of the event, whatever is typed
    afterwards. *)
Lemma loaded_form_keeps (ready : bool) (ev : string) (clock : string -> Z)
    (localeCompare : string -> string -> Js.number) (st0 st : ScoreEntry.State)
    (d : Db) :
  Spec.well_kept d ->
  List.NoDup (map fst (sportsday_participants d)) ->
  ScoreEntry.participants st
  = ScoreEntry.participants
      (ScoreEntry.onParticipantsSnapshot localeCompare (sportsday_participants d) st0) ->
  ScoreEntry.existingScores st
  = ScoreEntry.existingScores
      (ScoreEntry.onScoresSnapshot
         (where_scores (Some ev) None (sportsday_scores d)) st0) ->
  Spec.well_kept (fst (fst (ScoreEntry.handleSubmit accepts ready ev clock st d))).
Proof.
  intros Hwk Hnd Hps Hidx. apply handleSubmit_keeps; [exact Hwk | |].
  - rewrite Hps. cbn [ScoreEntry.onParticipantsSnapshot ScoreEntry.participants].
    eapply Permutation_NoDup; [|exact Hnd].
    symmetry. apply Permutation_map, sort_perm.
  - intros p. unfold Spec.index_current. rewrite Hidx. apply snapshot_index.
Qed.

(** Saving from the stopwatch keeps the collection well kept, whatever the
    store takes. *)
Lemma handleSaveScore_keeps (ready : bool) (now : Z) (st : Stopwatch.State) (d : Db) :
  Spec.well_kept d ->
  Spec.well_kept (fst (Stopwatch.handleSaveScore accepts ready now st d)).
Proof.
  intros Hwk. unfold Stopwatch.handleSaveScore.
  destruct (_ || _); [exact Hwk|].
  destruct (_ =? _)%Z; [exact Hwk|].
  destruct (negb ready); [exact Hwk|].
  match goal with
  | |- Spec.well_kept (fst (match ?save with _ => _ end)) =>
      assert (Hsave : Spec.well_kept (fst save));
      [|destruct save as [d' [m|e]]; exact Hsave]
  end.
  unfold bind at 1. unfold getDocs, bind.
  destruct (request_outcome
              (GetScores (Some (Stopwatch.selectedEvent st))
                         (Some (Stopwatch.selectedParticipant st))) d)
    as [-> | [(e & _ & ->) | (d' & Hc & ->)]]; [exact Hwk | exact Hwk |].
  cbn [commit] in Hc. injection Hc as <-.
  rewrite where_pair.
  destruct (Spec.records (Stopwatch.selectedEvent st)
                         (Stopwatch.selectedParticipant st) d)
    as [|[id old] rest] eqn:E.
  - unfold addDoc, ret.
    match goal with
    | |- context [request accepts ?o d] =>
        destruct (request_outcome o d) as [-> | [(e & _ & ->) | (d' & Hc & ->)]]
    end; cbn [fst]; auto.
    cbn [commit] in Hc. injection Hc as <-.
    now apply (added_well_kept (Stopwatch.selectedEvent st)
                 (Stopwatch.selectedParticipant st)).
  - unfold updateDoc, ret. cbn [fst].
    match goal with
    | |- context [request accepts ?o d] =>
        destruct (request_outcome o d) as [-> | [(e & _ & ->) | (d' & Hc & ->)]]
    end; cbn [fst]; auto.
    apply commit_update in Hc. subst d'.
    apply (rewritten_well_kept (Stopwatch.selectedEvent st)
             (Stopwatch.selectedParticipant st) id old); auto.
    rewrite E. now left.
Qed.

End KeepingFacts.

(** ** The scenario, evaluated *)


Lemma event_ranking_sorted_stable_witness :
  Permutation (EventScoresView.onSnapshot Scenario.one_event) Scenario.one_event.
Proof.
  apply (event_ranking_sorted_stable Scenario.one_event).
  repeat constructor.
Defined.


Lemma stopwatch_save_upsert_witness :
  Stopwatch.handleSaveScore Scenario.takes_all true 50 Scenario.timed Scenario.opening
  = (Firestore.with_scores Scenario.opening
       [(1%nat, {| Firestore.eventId := "E1"; Firestore.participantId := "P1";
                   Firestore.score := Js.Num (inject_Z 12340 / 1000);
                   Firestore.timestamp := 50 |})],
     Stopwatch.with_message Scenario.timed "Score saved successfully!").
Proof.
  destruct (stopwatch_save_upsert Scenario.takes_all 50 60 Scenario.timed Scenario.timed
              Scenario.opening (fun _ => eq_refl)
              ltac:(vm_compute; discriminate) ltac:(vm_compute; discriminate)
              ltac:(vm_compute; discriminate) eq_refl eq_refl
              ltac:(vm_compute; discriminate)) as [H _].
  apply H. reflexivity.
Defined.

(** C1: the score form decides between updating and adding from its own
    index of existing scores, not from the store. Evaluated on the two
    visits: the first save leaves one record for the pair (E1, P1); the
    second visit saves before the snapshot of the scores has filled the
    index, the save succeeds, and the store then holds two records for the
    pair. In general a filled field whose participant has no entry in the
    index is saved by appending a record to those the pair already has. *)
Theorem stale_index_adds_second_record :
  Spec.at_most_one_per_pair Scenario.after_first_save
  /\ Spec.records "E1" "P1" Scenario.after_first_save
     = [(1%nat, Scenario.score_of "E1" "P1" 5 100)]
  /\ ScoreEntry.loadingParticipants Scenario.second_visit = false
  /\ ScoreEntry.existingScores Scenario.second_visit !! "P1" = None
  /\ snd Scenario.second_save = true
  /\ Spec.records "E1" "P1" Scenario.after_second_save
     = [(1%nat, Scenario.score_of "E1" "P1" 5 100);
        (2%nat, Scenario.score_of "E1" "P1" 7 200)]
  /\ ~ Spec.at_most_one_per_pair Scenario.after_second_save
  /\ (forall accepts ev st now participant d,
        ScoreEntry.filled (ScoreEntry.scores st !! fst participant) = true ->
        ScoreEntry.existingScores st !! fst participant = None ->
        accepts (Firestore.AddScore
                   {| Firestore.eventId := ev;
                      Firestore.participantId := fst participant;
                      Firestore.score :=
                        ScoreEntry.parseFloat (ScoreEntry.scores st !! fst participant);
                      Firestore.timestamp := now |}) = true ->
        exists id data,
          Spec.records ev (fst participant)
            (fst (ScoreEntry.saveScore accepts ev st now participant d))
          = Spec.records ev (fst participant) d ++ [(id, data)]).
Proof.
  split; [|split; [|split; [|split; [|split; [|split; [|split]]]]]];
    try (vm_compute; reflexivity).
  - intros ev pid. unfold Spec.records.
    change (Firestore.sportsday_scores Scenario.after_first_save)
      with [(1%nat, Scenario.score_of "E1" "P1" (Js.value (Js.parseFloat "5")) 100)].
    cbn [List.filter]. destruct (Spec.for_pair _ _ _); simpl; lia.
  - intros H. specialize (H "E1" "P1"). vm_compute in H. lia.
  - intros accepts ev st now participant d Hfilled Hnone Hacc.
    unfold ScoreEntry.saveScore. rewrite Hfilled, Hnone.
    rewrite addDoc_accepted by exact Hacc. cbn [fst].
    eexists _, _. unfold Spec.records.
    cbn [Firestore.with_scores Firestore.sportsday_scores].
    rewrite List.filter_app. cbn [List.filter]. unfold Spec.for_pair at 2.
    cbn [snd Firestore.eventId Firestore.participantId].
    rewrite !String.eqb_refl. reflexivity.
Qed.

(** C3: the cascade starts the deletion of each score without awaiting it.
    Evaluated on a store that the deletions of score documents do not reach:
    deleting the event, and likewise deleting the participant, ends with the
    message of success while the score of the deleted parent is still in the
    collection. In general the message of success follows as soon as the
    parent is deleted and the scores are queried, whatever becomes of the
    deletions of the scores. *)
Theorem cascade_success_with_score_left :
  snd (EventList.handleDeleteEvent Scenario.loses_score_deletes "E1")
      Scenario.after_first_save
  = ({| Firestore.sportsday_events := [];
        Firestore.sportsday_participants := [Scenario.ann];
        Firestore.sportsday_scores := [(1%nat, Scenario.score_of "E1" "P1" 5 100)] |},
     "Event and its scores deleted successfully!")
  /\ snd (ParticipantList.handleDeleteParticipant Scenario.loses_score_deletes "P1")
         Scenario.after_first_save
     = ({| Firestore.sportsday_events := [Scenario.sprint];
           Firestore.sportsday_participants := [];
           Firestore.sportsday_scores := [(1%nat, Scenario.score_of "E1" "P1" 5 100)] |},
        "Participant and their scores deleted successfully!")
  /\ (forall accepts ev d,
        accepts (Firestore.DeleteEvent ev) = true ->
        accepts (Firestore.GetScores (Some ev) None) = true ->
        snd (snd (EventList.handleDeleteEvent accepts ev) d)
        = "Event and its scores deleted successfully!")
  /\ (forall accepts pid d,
        accepts (Firestore.DeleteParticipant pid) = true ->
        accepts (Firestore.GetScores None (Some pid)) = true ->
        snd (snd (ParticipantList.handleDeleteParticipant accepts pid) d)
        = "Participant and their scores deleted successfully!").
Proof.
  split; [|split; [|split]]; try (vm_compute; reflexivity).
  - intros accepts ev d Hdel Hget.
    cbn [snd EventList.handleDeleteEvent]. unfold EventList.deleteEvent.
    unfold Firestore.bind at 1.
    unfold Firestore.deleteDoc_event, Firestore.request. rewrite Hdel.
    cbn [Firestore.commit]. unfold Firestore.bind at 1.
    rewrite getDocs_accepted by exact Hget.
    now rewrite forEach_async_run.
  - intros accepts pid d Hdel Hget.
    cbn [snd ParticipantList.handleDeleteParticipant].
    unfold ParticipantList.deleteParticipant.
    unfold Firestore.bind at 1.
    unfold Firestore.deleteDoc_participant, Firestore.request. rewrite Hdel.
    cbn [Firestore.commit]. unfold Firestore.bind at 1.
    rewrite getDocs_accepted by exact Hget.
    now rewrite forEach_async_run.
Qed.

(** * Further properties *)

(** ** The stopwatch display *)

Section FormatFacts.
Local Arguments String.append !_ _ / : simpl nomatch.
Local Open Scope Z_scope.

Lemma below_100 (P : Z -> bool) :
  forallb P (map Z.of_nat (seq 0 100)) = true ->
  forall n, 0 <= n < 100 -> P n = true.
Proof.
  intros H n Hn. rewrite forallb_forall in H. apply H.
  apply List.in_map_iff. exists (Z.to_nat n). split; [lia|].
  apply in_seq. lia.
Qed.

Lemma padded_two_digits (n : Z) :
  0 <= n < 100 -> String.length (Terms.padded n) = 2%nat /\ Js.all_digits (Terms.padded n) = true.
Proof.
  intros Hn.
  pose proof (below_100
    (fun n => Nat.eqb (String.length (Terms.padded n)) 2 && Js.all_digits (Terms.padded n))
    eq_refl n Hn) as H.
  apply andb_true_iff in H as [H1 H2]. apply Nat.eqb_eq in H1. auto.
Qed.

Lemma padded_read (n : Z) :
  0 <= n -> option_map Z.of_int (NilZero.int_of_string (Terms.padded n)) = Some n.
Proof.
  intros Hn. rewrite <- (DecimalZ.of_to n) at 2.
  unfold Terms.padded, JsString.of_integer.
  destruct n as [|p|p]; [reflexivity| |lia].
  cbn [Z.to_int NilZero.string_of_int].
  destruct (Pos.to_uint p) as [|u|u|u|u|u|u|u|u|u|u] eqn:E;
    try reflexivity;
    (destruct u as [|u|u|u|u|u|u|u|u|u|u]; [reflexivity|..]);
    (match goal with
     | |- context [JsString.padStart 2 _ (NilZero.string_of_uint ?u)] =>
         change (JsString.padStart 2 "0" (NilZero.string_of_uint u))
           with (NilZero.string_of_int (Pos u));
         rewrite NilZero.isi by discriminate; reflexivity
     end).
Qed.

Lemma length_append (a b : string) :
  String.length (a +:+ b) = (String.length a + String.length b)%nat.
Proof. induction a as [|c a IH]; simpl; [reflexivity | now rewrite IH]. Qed.

Lemma append_inj (a b x y : string) :
  String.length x = String.length y -> a +:+ x = b +:+ y -> a = b /\ x = y.
Proof.
  intros Hlen. revert b. induction a as [|c a IH]; intros [|c' b] H; simpl in H.
  - auto.
  - apply (f_equal String.length) in H. simpl in H. rewrite length_append in H. lia.
  - apply (f_equal String.length) in H. simpl in H. rewrite length_append in H. lia.
  - injection H as -> H. destruct (IH _ H) as [-> ->]. auto.
Qed.

Lemma padded_inj (m n : Z) : 0 <= m -> 0 <= n -> Terms.padded m = Terms.padded n -> m = n.
Proof.
  intros Hm Hn H. pose proof (padded_read m Hm) as Rm. rewrite H, (padded_read n Hn) in Rm.
  congruence.
Qed.

Lemma formatTime_parts (t : Z) :
  StopwatchView.formatTime t
  = Terms.padded (t / 60000) +:+ ":" +:+ Terms.padded (Z.rem t 60000 / 1000) +:+ "." +:+
    Terms.padded (Z.rem t 1000 / 10).
Proof. reflexivity. Qed.

Lemma parts_range (t : Z) :
  0 <= t ->
  0 <= t / 60000 /\ 0 <= Z.rem t 60000 / 1000 < 60 /\ 0 <= Z.rem t 1000 / 10 < 100
  /\ t / 10 = 6000 * (t / 60000) + 100 * (Z.rem t 60000 / 1000) + Z.rem t 1000 / 10.
Proof.
  intros Ht. rewrite !Z.rem_mod_nonneg by lia.
  Z.div_mod_to_equations. lia.
Qed.

(** X1: two times from 0 on are displayed alike exactly when they agree up
    to the hundredth of a second: the display drops the milliseconds digit
    and loses nothing else, however long the stopwatch runs. *)
Theorem formatTime_distinguishes (t1 t2 : Z) :
  0 <= t1 -> 0 <= t2 ->
  (StopwatchView.formatTime t1 = StopwatchView.formatTime t2 <-> t1 / 10 = t2 / 10).
Proof.
  intros H1 H2.
  destruct (parts_range t1 H1) as (Hm1 & Hs1 & Hc1 & E1).
  destruct (parts_range t2 H2) as (Hm2 & Hs2 & Hc2 & E2).
  rewrite !formatTime_parts. split.
  - intros H.
    assert (Ls : forall t, 0 <= t -> String.length (Terms.padded (Z.rem t 60000 / 1000)) = 2%nat).
    { intros t Ht. apply padded_two_digits. destruct (parts_range t Ht) as (_ & ? & _). lia. }
    assert (Lc : forall t, 0 <= t -> String.length (Terms.padded (Z.rem t 1000 / 10)) = 2%nat).
    { intros t Ht. apply padded_two_digits. destruct (parts_range t Ht) as (_ & _ & ? & _). lia. }
    apply append_inj in H as [Hm H].
    2:{ simpl. rewrite !length_append. simpl. rewrite !Ls, !Lc by assumption. reflexivity. }
    simpl in H. injection H as H.
    apply append_inj in H as [Hs H].
    2:{ simpl. rewrite !Lc by assumption. reflexivity. }
    simpl in H. injection H as Hc.
    apply padded_inj in Hm, Hs, Hc; lia.
  - intros H.
    assert (t1 / 60000 = t2 / 60000 /\ Z.rem t1 60000 / 1000 = Z.rem t2 60000 / 1000
            /\ Z.rem t1 1000 / 10 = Z.rem t2 1000 / 10) as (-> & -> & ->);
      [|reflexivity].
    rewrite !Z.rem_mod_nonneg by lia. Z.div_mod_to_equations. lia.
Qed.

(** X2: below 100 minutes the display is two digits, a colon, two digits, a
    point and two digits. *)
Theorem formatTime_shape (t : Z) :
  0 <= t < 6000000 ->
  exists mm ss cc,
    StopwatchView.formatTime t = mm +:+ ":" +:+ ss +:+ "." +:+ cc
    /\ String.length mm = 2%nat /\ String.length ss = 2%nat /\ String.length cc = 2%nat
    /\ Js.all_digits mm = true /\ Js.all_digits ss = true /\ Js.all_digits cc = true
    /\ String.length (StopwatchView.formatTime t) = 8%nat.
Proof.
  intros Ht. destruct (parts_range t) as (Hm & Hs & Hc & _); [lia|].
  assert (Hm' : 0 <= t / 60000 < 100) by (Z.div_mod_to_equations; lia).
  destruct (padded_two_digits _ Hm') as [Lm Dm].
  destruct (padded_two_digits (Z.rem t 60000 / 1000)) as [Ls Ds]; [lia|].
  destruct (padded_two_digits _ Hc) as [Lc Dc].
  exists (Terms.padded (t / 60000)), (Terms.padded (Z.rem t 60000 / 1000)), (Terms.padded (Z.rem t 1000 / 10)).
  repeat split; auto.
  rewrite formatTime_parts, !length_append, Lm, Ls, Lc. reflexivity.
Qed.
End FormatFacts.


Lemma formatTime_distinguishes_witness :
  StopwatchView.formatTime 12340 = StopwatchView.formatTime 12349.
Proof.
  apply (proj2 (formatTime_distinguishes 12340 12349 ltac:(lia) ltac:(lia))).
  reflexivity.
Defined.

Lemma formatTime_shape_witness :
  exists mm ss cc,
    StopwatchView.formatTime 61005 = mm +:+ ":" +:+ ss +:+ "." +:+ cc
    /\ String.length mm = 2%nat /\ String.length ss = 2%nat /\ String.length cc = 2%nat
    /\ Js.all_digits mm = true /\ Js.all_digits ss = true /\ Js.all_digits cc = true
    /\ String.length (StopwatchView.formatTime 61005) = 8%nat.
Proof. apply (formatTime_shape 61005). lia. Defined.
